(** * Red Panda Lineage dataset builder ([build.py]): shallow embedding

    The builder reads a tree of zoo records and a tree of panda records,
    accumulates vertices and edges in a [RedPandaGraph], runs the dataset
    checks and writes the graph as JSON.

    Conventions of the embedding.
    - A Python [str] is a Rocq [string] holding its UTF-8 encoding (files are
      read with [encoding='utf-8']).  Equality, substring search, splitting on
      an ASCII separator and lexicographic comparison agree on code points and
      on UTF-8 bytes; [len] counts code points, see [py_len].
    - A Python [dict] from [str] to [str] is a [gmap string string]: equality
      of dicts ignores insertion order, and the exporter sorts the keys.
    - A raised exception ends the run, so every operation returns a [result]
      and the store is threaded explicitly through the calls.
    - [self.vertices] holds references.  A zoo dict found there is the very
      object held by [self.zoos]; [vobj] records which object a reference
      points to. *)

From Stdlib Require Import ZArith Ascii DecimalString.
From stdpp Require Import gmap strings list fin_maps sorting.

Set Warnings "-register-all".

Local Open Scope string_scope.
Local Open Scope Z_scope.
Local Open Scope nat_scope.
Local Open Scope list_scope.
Local Open Scope stdpp_scope.

(** ** Exceptions and the result monad *)

Inductive id_error :=
| DuplicateIds (dupe_names : list string)
| ZooIdMissing (sourcepath zoo_id : string)
| InvalidChildren (path : string) (children : list string).

Inductive exn :=
| DateFormatError (sourcepath year month day : string)
| GenderFormatError (sourcepath gender : string)
| IdError (info : id_error)
| NameFormatError (sourcepath field name : string)
| ValueError
| TypeError
| KeyError (key : string)
| IndexError
| UnboundLocalError (var : string)
| NoSectionError (section : string)
| NoOptionError (option section : string).

Inductive result (A : Type) :=
| Ok (a : A)
| Raise (e : exn).
Arguments Ok {A} a.
Arguments Raise {A} e.

Global Instance result_ret : MRet result := λ A a, Ok a.
Global Instance result_bind : MBind result := λ A B f m,
  match m with
  | Ok a => f a
  | Raise e => Raise e
  end.

(** [for x in l: s = f(s, x)] where [f] may raise. *)
Fixpoint foldM {A S : Type} (f : S → A → result S) (s : S) (l : list A) : result S :=
  match l with
  | [] => Ok s
  | x :: l' =>
      match f s x with
      | Ok s' => foldM f s' l'
      | Raise e => Raise e
      end
  end.

(** [[f(x) for x in l]] where [f] may raise. *)
Fixpoint forM {A B : Type} (f : A → result B) (l : list A) : result (list B) :=
  match l with
  | [] => Ok []
  | x :: l' =>
      match f x with
      | Ok y => match forM f l' with
                | Ok ys => Ok (y :: ys)
                | Raise e => Raise e
                end
      | Raise e => Raise e
      end
  end.

(** [[x for x in l if p(x)]] where [p] may raise. *)
Fixpoint filterM {A : Type} (p : A → result bool) (l : list A) : result (list A) :=
  match l with
  | [] => Ok []
  | x :: l' =>
      match p x with
      | Ok b => match filterM p l' with
                | Ok xs => Ok (if b then x :: xs else xs)
                | Raise e => Raise e
                end
      | Raise e => Raise e
      end
  end.


(** ** Python string primitives *)

Definition dquote : ascii := ascii_of_nat 34.
Definition backslash : ascii := ascii_of_nat 92.

(** A UTF-8 continuation byte has the form [10xxxxxx]. *)
Definition is_continuation (a : ascii) : bool :=
  let n := N_of_ascii a in ((128 <=? n) && (n <? 192))%N.

(** [len(s)]: the number of code points. *)
Fixpoint py_len (s : string) : nat :=
  match s with
  | EmptyString => 0
  | String a s' => if is_continuation a then py_len s' else S (py_len s')
  end.

(** [s.find(sub) != -1]. *)
Fixpoint contains (sub s : string) : bool :=
  String.prefix sub s ||
  match s with
  | EmptyString => false
  | String _ s' => contains sub s'
  end.

(** [s.replace(c, "")] for a one-character [c]. *)
Fixpoint remove_char (c : ascii) (s : string) : string :=
  match s with
  | EmptyString => EmptyString
  | String a s' => if Ascii.eqb a c then remove_char c s' else String a (remove_char c s')
  end.

(** [s.split(c)] for a one-character separator: the pieces between the
    separators, an empty string giving one empty piece. *)
Fixpoint py_split (c : ascii) (s : string) : list string :=
  match s with
  | EmptyString => [EmptyString]
  | String a s' =>
      if Ascii.eqb a c then EmptyString :: py_split c s'
      else match py_split c s' with
           | [] => [String a EmptyString]
           | piece :: pieces => String a piece :: pieces
           end
  end.

Definition lower_ascii (a : ascii) : ascii :=
  let n := N_of_ascii a in
  if ((65 <=? n) && (n <=? 90))%N then ascii_of_N (n + 32) else a.

(** [s.lower()].  Only the ASCII letters are folded: the one use tests the
    suffix [.txt], and no other code point lowers to one of its letters. *)
Fixpoint py_lower (s : string) : string :=
  match s with
  | EmptyString => EmptyString
  | String a s' => String (lower_ascii a) (py_lower s')
  end.

(** [s.endswith(suffix)]. *)
Definition endswith (s suffix : string) : bool :=
  String.prefix (String.rev suffix) (String.rev s).

(** [os.path.join(a, b)] for a listed name [b]. *)
Definition path_join (a b : string) : string := a +:+ "/" +:+ b.

(** Whitespace skipped by [int]: tab to carriage return, the four
    separators 0x1c to 0x1f, and the space. *)
Definition is_space (a : ascii) : bool :=
  let n := N_of_ascii a in
  (((9 <=? n) && (n <=? 13)) || ((28 <=? n) && (n <=? 32)))%N.

Fixpoint lstrip (s : string) : string :=
  match s with
  | EmptyString => EmptyString
  | String a s' => if is_space a then lstrip s' else s
  end.

Definition strip (s : string) : string :=
  String.rev (lstrip (String.rev (lstrip s))).

Definition digit_val (a : ascii) : option Z :=
  let n := N_of_ascii a in
  if ((48 <=? n) && (n <=? 57))%N then Some (Z.of_N n - 48)%Z else None.

(** Decimal digits, single underscores allowed between two digits. *)
Fixpoint parse_digits (acc : Z) (after_digit : bool) (s : string) : option Z :=
  match s with
  | EmptyString => if after_digit then Some acc else None
  | String a s' =>
      match digit_val a with
      | Some d => parse_digits (10 * acc + d)%Z true s'
      | None =>
          if Ascii.eqb a "_"%char && after_digit then parse_digits acc false s'
          else None
      end
  end.

(** [int(s)] in base ten, for ASCII input: surrounding whitespace, one
    optional sign, digits. *)
Definition py_int (s : string) : result Z :=
  let body := strip s in
  let parsed :=
    match body with
    | String "-" s' => Z.opp <$> parse_digits 0 false s'
    | String "+" s' => parse_digits 0 false s'
    | _ => parse_digits 0 false body
    end in
  match parsed with
  | Some z => Ok z
  | None => Raise ValueError
  end.

(** [str(n)] and [%d] for an [int]. *)
Definition py_str (z : Z) : string := NilZero.string_of_int (Z.to_int z).

(** [sorted(l)] for a list of strings. *)
Definition sorted (l : list string) : list string := merge_sort String.le l.

(** [sep.join(l)]. *)
Fixpoint py_join (sep : string) (l : list string) : string :=
  match l with
  | [] => EmptyString
  | [x] => x
  | x :: l' => x +:+ sep +:+ py_join sep l'
  end.

(** [l.remove(x)]: drops the first occurrence (the callers test [x in l]
    first, so the absent case never raises here). *)
Fixpoint list_remove_first (x : string) (l : list string) : list string :=
  match l with
  | [] => []
  | y :: l' => if String.eqb y x then l' else y :: list_remove_first x l'
  end.

(** [x in l] for a list of strings. *)
Definition str_in (x : string) (l : list string) : bool :=
  existsb (String.eqb x) l.

(** [[f(x) for x in l if cond(x)]]: per element the condition first, then
    the expression; either may raise. *)
Fixpoint list_comp {A B : Type} (cond : A → result bool) (f : A → result B)
    (l : list A) : result (list B) :=
  match l with
  | [] => Ok []
  | x :: l' =>
      match cond x with
      | Ok true =>
          match f x with
          | Ok y => match list_comp cond f l' with
                    | Ok ys => Ok (y :: ys)
                    | Raise e => Raise e
                    end
          | Raise e => Raise e
          end
      | Ok false => list_comp cond f l'
      | Raise e => Raise e
      end
  end.

(** [enumerate(l)]. *)
Definition enumerate {A : Type} (l : list A) : list (nat * A) := imap pair l.

(** ** The record source

    [configparser] hands the builder, per file, the sections of the file and
    per section its options in file order. *)

Definition record : Type := list (string * string).
Definition config : Type := list (string * record).

Fixpoint assoc {A : Type} (k : string) (l : list (string * A)) : option A :=
  match l with
  | [] => None
  | (k', v) :: l' => if String.eqb k' k then Some v else assoc k l'
  end.

(** [infile.items(section)]. *)
Definition config_items (infile : config) (section : string) : result record :=
  match assoc section infile with
  | Some r => Ok r
  | None => Raise (NoSectionError section)
  end.

(** [infile.get(section, option)]. *)
Definition config_get (infile : config) (section option : string) : result string :=
  match assoc section infile with
  | Some r =>
      match assoc option r with
      | Some v => Ok v
      | None => Raise (NoOptionError option section)
      end
  | None => Raise (NoSectionError section)
  end.

(** What the builder observes of the file system: [os.listdir] (names in
    no particular order), [os.path.isdir], [os.path.isfile], and the parse
    of a file by [ConfigParser.read]. *)
Record filesystem := {
  listdir : string → list string;
  isdir : string → bool;
  isfile : string → bool;
  read_config : string → config
}.

Definition PANDA_PATH : string := "./pandas".
Definition OUTPUT_PATH : string := "./export/redpanda.json".
Definition ZOO_PATH : string := "./zoos".

(** ** The graph store *)

Abbreviation vertex := (gmap string string).

Record edge := mk_edge {
  e_out : string;
  e_in : string;
  e_label : string
}.

(** An element of [self.vertices]: either the [i]-th dict of [self.zoos]
    (shared with that list, contents [d]) or a dict built by
    [import_redpanda]. *)
Inductive vobj :=
| ZooObj (i : nat) (d : vertex)
| PandaObj (d : vertex).

Definition obj_dict (o : vobj) : vertex :=
  match o with
  | ZooObj _ d => d
  | PandaObj d => d
  end.

Record RedPandaGraph := {
  edges : list edge;
  vertices : list vobj;
  zoos : list vertex;
  panda_files : list string;
  zoo_files : list string
}.

(** [RedPandaGraph.__init__]. *)
Definition init : RedPandaGraph :=
  {| edges := []; vertices := []; zoos := []; panda_files := []; zoo_files := [] |}.

(** [d[key]]. *)
Definition getitem (d : vertex) (key : string) : result string :=
  match d !! key with
  | Some v => Ok v
  | None => Raise (KeyError key)
  end.

(** [t[key]] for a tuple [t] and a [str] key: tuples take integer indices. *)
Definition tuple_getitem (t : nat * vertex) (key : string) : result string :=
  Raise TypeError.

(** [d in l] for a list of dict references: some element is [d] or equals
    [d]; a dict equals itself, so the test is on the contents. *)
Definition dict_in (d : vertex) (l : list vobj) : bool :=
  existsb (λ o, bool_decide (obj_dict o = d)) l.

(** ** Dataset checks *)

(** The body is [pass]. *)
Definition check_dataset_dates (g : RedPandaGraph) : result unit := Ok ().

(** The body is [pass]. *)
Definition check_dataset_children_ids (g : RedPandaGraph) : result unit := Ok ().

(** [[a for n, a in enumerate(ids) if a in ids[:n]]]. *)
Definition dupe_ids_of (ids : list string) : list string :=
  omap (λ na : nat * string, if str_in na.2 (take na.1 ids) then Some na.2 else None)
       (enumerate ids).

Definition check_dataset_duplicate_ids (dataset : list vertex) : result unit :=
  ids ← forM (λ a, getitem a "_id") dataset;
  let dupe_ids := dupe_ids_of ids in
  if 0 <? length dupe_ids then
    dupe_names ← list_comp
      (λ a, i ← tuple_getitem a "_id"; Ok (str_in i dupe_ids))
      (λ a, tuple_getitem a "en.name")
      (enumerate dataset);
    Raise (IdError (DuplicateIds dupe_names))
  else Ok ().

(** ** Field validators *)


Definition check_imported_gender (gender sourcepath : string) : result string :=
  if str_in gender ["m"; "M"; "male"; "Male"; "オス"] then Ok "Male"
  else if str_in gender ["f"; "F"; "female"; "Female"; "メス"] then Ok "Female"
  else Raise (GenderFormatError sourcepath gender).

Definition check_imported_name (name field sourcepath : string) : result unit :=
  if 80 <? py_len name then Raise (NameFormatError sourcepath field name)
  else Ok ().

Definition check_imported_zoo_id (g : RedPandaGraph) (zoo_id sourcepath : string)
    : result unit :=
  n ← py_int zoo_id;
  let check_id := py_str (n * -1) in
  ids ← forM (λ zoo, getitem zoo "_id") (zoos g);
  if negb (str_in check_id ids) then Raise (IdError (ZooIdMissing sourcepath zoo_id))
  else Ok ().

(** ** Importers *)

(** One turn of the loop of [import_zoo]. *)
Definition import_zoo_field (zoo_entry : vertex) (field : string * string)
    : result vertex :=
  let '(key, value) := field in
  value ← (if String.eqb key "_id" then
             n ← py_int field.2; Ok (py_str (n * -1))
           else Ok value);
  Ok (<[key := value]> zoo_entry).

Definition import_zoo (fs : filesystem) (g : RedPandaGraph) (path : string)
    : result RedPandaGraph :=
  let infile := read_config fs path in
  items ← config_items infile "zoo";
  zoo_entry ← foldM import_zoo_field ∅ items;
  Ok {| edges := edges g;
        vertices := vertices g;
        zoos := zoos g ++ [zoo_entry];
        panda_files := panda_files g;
        zoo_files := zoo_files g ++ [path] |}.

(** [self.vertices.append(zoo_vertex)]. *)
Definition append_vertex (g : RedPandaGraph) (o : vobj) : RedPandaGraph :=
  {| edges := edges g;
     vertices := vertices g ++ [o];
     zoos := zoos g;
     panda_files := panda_files g;
     zoo_files := zoo_files g |}.

(** The children branch: the tokens that become [family] edges. *)
Definition children_tokens (path value : string) : result (list string) :=
  let children := py_split "," (remove_char " " value) in
  if str_in "none" children || str_in "unknown" children then
    if 1 <? length children then
      Raise (IdError (InvalidChildren path children))
    else
      let children :=
        if str_in "none" children then list_remove_first "none" children
        else children in
      let children :=
        if str_in "unknown" children then list_remove_first "unknown" children
        else children in
      Ok children
  else Ok children.

(** One turn of the loop of [import_redpanda]; the state is the store (for
    [self.vertices]) with the locals [panda_edges] and [panda_vertex]. *)
Definition import_redpanda_field (path panda_id : string)
    (st : RedPandaGraph * list edge * vertex) (field : string * string)
    : result (RedPandaGraph * list edge * vertex) :=
  let '(g, panda_edges, panda_vertex) := st in
  let '(key, value) := field in
  if contains "name" key then
    _ ← check_imported_name value key path;
    Ok (g, panda_edges, <[key := value]> panda_vertex)
  else if contains "gender" key then
    gender ← check_imported_gender value path;
    Ok (g, panda_edges, <[key := gender]> panda_vertex)
  else if contains "birthplace" key || contains "zoo" key then
    n ← py_int value;
    let zoo_id := py_str (n * -1) in
    _ ← check_imported_zoo_id g value path;
    found ← filterM (λ a : nat * vertex, i ← getitem a.2 "_id"; Ok (String.eqb i zoo_id))
                    (enumerate (zoos g));
    zoo_vertex ← match found with
                 | a :: _ => Ok a
                 | [] => Raise IndexError
                 end;
    let g := if negb (dict_in zoo_vertex.2 (vertices g))
             then append_vertex g (ZooObj zoo_vertex.1 zoo_vertex.2)
             else g in
    Ok (g, panda_edges ++ [mk_edge panda_id zoo_id key], panda_vertex)
  else if contains "children" key then
    children ← children_tokens path value;
    Ok (g, panda_edges ++ ((λ child_id, mk_edge panda_id child_id "family") <$> children),
        panda_vertex)
  else
    Ok (g, panda_edges, <[key := value]> panda_vertex).

Definition import_redpanda (fs : filesystem) (g : RedPandaGraph) (path : string)
    : result RedPandaGraph :=
  let infile := read_config fs path in
  panda_nane ← config_get infile "panda" "en.name";
  panda_id ← config_get infile "panda" "_id";
  items ← config_items infile "panda";
  '(g, panda_edges, panda_vertex) ← foldM (import_redpanda_field path panda_id) (g, [], ∅) items;
  Ok {| edges := edges g ++ panda_edges;
        vertices := vertices g ++ [PandaObj panda_vertex];
        zoos := zoos g;
        panda_files := panda_files g ++ [path];
        zoo_files := zoo_files g |}.

Definition verify_zoos (g : RedPandaGraph) : result unit :=
  check_dataset_duplicate_ids (zoos g).

Definition verify_pandas (g : RedPandaGraph) : result unit :=
  _ ← check_dataset_duplicate_ids (obj_dict <$> vertices g);
  _ ← check_dataset_children_ids g;
  check_dataset_dates g.

Definition import_tree (fs : filesystem) (path : string)
    (import_method : RedPandaGraph → string → result RedPandaGraph)
    (verify_method : RedPandaGraph → result unit)
    (g : RedPandaGraph) : result RedPandaGraph :=
  g ← foldM (λ g subdir,
        let subpath := path_join path subdir in
        if isdir fs subpath then
          foldM (λ g subfile,
              let datafile := path_join subpath subfile in
              if isfile fs datafile && endswith (py_lower datafile) ".txt"
              then import_method g datafile
              else Ok g)
            g (sorted (listdir fs subpath))
        else Ok g)
      g (sorted (listdir fs path));
  _ ← verify_method g;
  Ok g.

Definition build_graph (fs : filesystem) (g : RedPandaGraph) : result RedPandaGraph :=
  g ← import_tree fs ZOO_PATH (import_zoo fs) verify_zoos g;
  import_tree fs PANDA_PATH (import_redpanda fs) verify_pandas g.

(** ** Export *)

(** The values [json.dumps] is given: strings, integers, lists and dicts
    with string keys (items in insertion order). *)
Inductive json :=
| JStr (s : string)
| JInt (z : Z)
| JList (l : list json)
| JDict (items : list (string * json)).

Definition hex_digit (n : N) : ascii :=
  if (n <? 10)%N then ascii_of_N (48 + n) else ascii_of_N (87 + n).

(** The replacement of one character inside a JSON string with
    [ensure_ascii=False]: the quote, the backslash and the control
    characters below 0x20 are escaped, everything else is kept. *)
Definition escape_char (a : ascii) : string :=
  let n := N_of_ascii a in
  if Ascii.eqb a dquote then String backslash (String dquote "")
  else if Ascii.eqb a backslash then String backslash (String backslash "")
  else if (n =? 8)%N then String backslash "b"
  else if (n =? 12)%N then String backslash "f"
  else if (n =? 10)%N then String backslash "n"
  else if (n =? 13)%N then String backslash "r"
  else if (n =? 9)%N then String backslash "t"
  else if (n <? 32)%N then
    String backslash ("u00" +:+ String (hex_digit (n / 16)) (String (hex_digit (n mod 16)) ""))
  else String a "".

Fixpoint escape (s : string) : string :=
  match s with
  | EmptyString => EmptyString
  | String a s' => escape_char a +:+ escape s'
  end.

Definition encode_basestring (s : string) : string :=
  String dquote (escape s +:+ String dquote "").

(** [sort_keys=True]: the items of a dict ordered by key. *)
Definition sort_items (items : list (string * string)) : list (string * string) :=
  merge_sort (λ a b, String.le a.1 b.1) items.

(** [json.dumps(j, ensure_ascii=False, sort_keys=True)], default separators. *)
Fixpoint json_dumps (j : json) : string :=
  match j with
  | JStr s => encode_basestring s
  | JInt z => py_str z
  | JList l => "[" +:+ py_join ", " (map json_dumps l) +:+ "]"
  | JDict items =>
      "{" +:+ py_join ", "
        ((λ kv : string * string, encode_basestring kv.1 +:+ ": " +:+ kv.2) <$>
           sort_items (map (λ kv : string * json, (kv.1, json_dumps kv.2)) items))
      +:+ "}"
  end.

Definition json_of_vertex (d : vertex) : json :=
  JDict ((λ kv : string * string, (kv.1, JStr kv.2)) <$> map_to_list d).

Definition json_of_edge (e : edge) : json :=
  JDict [("_out", JStr (e_out e)); ("_in", JStr (e_in e)); ("_label", JStr (e_label e))].

(** [d[key]] on an exported dict. *)
Definition json_get (j : json) (key : string) : option json :=
  match j with
  | JDict items => assoc key items
  | _ => None
  end.

Definition totals_zoos (g : RedPandaGraph) : Z := Z.of_nat (length (zoos g)).
Definition totals_pandas (g : RedPandaGraph) : Z :=
  (Z.of_nat (length (vertices g)) - Z.of_nat (length (zoos g)))%Z.

(** The dict [export] of [export_json_graph]. *)
Definition export_dict (g : RedPandaGraph) : json :=
  JDict [("vertices", JList (json_of_vertex ∘ obj_dict <$> vertices g));
         ("edges", JList (json_of_edge <$> edges g));
         ("totals", JDict [("zoos", JInt (totals_zoos g));
                           ("pandas", JInt (totals_pandas g))])].

(** What a run leaves behind: the bytes written to [destpath] and the line
    printed on the diagnostic stream. *)
Record exported := {
  destpath : string;
  written : string;
  printed : string
}.

Definition export_json_graph (g : RedPandaGraph) (destpath : string) : exported :=
  let export := export_dict g in
  {| destpath := destpath;
     written := json_dumps export;
     printed := "Dataset exported: " +:+ py_str (totals_pandas g) +:+ " pandas at "
                +:+ py_str (totals_zoos g) +:+ " zoos" |}.

(** The script body: build, then export. *)
Definition main (fs : filesystem) : result exported :=
  p ← build_graph fs init;
  Ok (export_json_graph p OUTPUT_PATH).

(** ** A sample data set *)

Definition sample_zoo : config :=
  [("zoo", [("_id", "5"); ("en.name", "Sample Zoo")])].

Definition sample_panda : config :=
  [("panda", [("_id", "100"); ("en.name", "Mochi"); ("gender", "f");
              ("birthplace", "5"); ("children", "none")])].

(** A tree with the given files: [zoos/0001/<name>] and [pandas/0001/<name>]. *)
Definition fs_of (zoo_list panda_list : list (string * config)) : filesystem :=
  {| listdir := λ p,
       if String.eqb p "./zoos" then ["0001"]
       else if String.eqb p "./pandas" then ["0001"]
       else if String.eqb p "./zoos/0001" then zoo_list.*1
       else if String.eqb p "./pandas/0001" then panda_list.*1
       else [];
     isdir := λ p, String.eqb p "./zoos/0001" || String.eqb p "./pandas/0001";
     isfile := λ p, endswith p ".txt";
     read_config := λ p,
       default [] (assoc p ((prod_map (path_join "./zoos/0001") id <$> zoo_list) ++
                            (prod_map (path_join "./pandas/0001") id <$> panda_list))) |}.

Definition sample_fs : filesystem :=
  fs_of [("sample.txt", sample_zoo)] [("mochi.txt", sample_panda)].

(** A family of three pandas whose [children] fields close a loop. *)
Definition panda_file (id name : string) (more : record) : config :=
  [("panda", [("_id", id); ("en.name", name)] ++ more)].

Definition cycle_fs : filesystem :=
  fs_of [] [("a.txt", panda_file "1" "A" [("children", "2")]);
            ("b.txt", panda_file "2" "B" [("children", "3")]);
            ("c.txt", panda_file "3" "C" [("children", "1")])].

(** A parent born ten years after its child. *)
Definition chronology_fs : filesystem :=
  fs_of [] [("a.txt", panda_file "1" "Parent" [("birthday", "2010/01/01"); ("children", "2")]);
            ("b.txt", panda_file "2" "Child" [("birthday", "2000/01/01")])].

(** A panda whose birthday is not a calendar date, and one whose birthday
    is not a date at all. *)
Definition bad_date_fs : filesystem :=
  fs_of [] [("a.txt", panda_file "1" "A" [("birthday", "2021/02/30")]);
            ("b.txt", panda_file "2" "B" [("birthday", "next tuesday")])].

Definition long_name : string :=
  "Zoological Garden With A Name That Is Much Too Long To Fit On Any Single Line Now".

(** A zoo whose name has 81 characters. *)
Definition long_zoo_fs : filesystem :=
  fs_of [("z.txt", [("zoo", [("_id", "7"); ("en.name", long_name)])])] [].

(** Two vertices that share the id 1. *)
Definition twin_dataset : list vertex :=
  [ {[ "_id" := "1"; "en.name" := "Harumaki" ]};
    {[ "_id" := "1"; "en.name" := "Karin" ]} ].

(** One zoo that no panda refers to. *)
Definition lonely_zoo_fs : filesystem :=
  fs_of [("sample.txt", sample_zoo)] [].

(** Two pandas born at the same zoo. *)
Definition siblings_fs : filesystem :=
  fs_of [("sample.txt", sample_zoo)]
        [("a.txt", panda_file "1" "A" [("birthplace", "5"); ("zoo", "5")]);
         ("b.txt", panda_file "2" "B" [("birthplace", "5")])].

(** The same tree, the panda directory listing its files in the other
    order. *)
Definition siblings_fs_relisted : filesystem :=
  fs_of [("sample.txt", sample_zoo)]
        [("b.txt", panda_file "2" "B" [("birthplace", "5")]);
         ("a.txt", panda_file "1" "A" [("birthplace", "5"); ("zoo", "5")])].

(** ** Vocabulary of the statements *)

(** The branch of the loop of [import_redpanda] that a field name takes:
    the tests of the [if]/[elif] chain, in their order. *)
Inductive field_kind := KName | KGender | KZoo | KChildren | KOther.

Definition kind_of (key : string) : field_kind :=
  if contains "name" key then KName
  else if contains "gender" key then KGender
  else if contains "birthplace" key || contains "zoo" key then KZoo
  else if contains "children" key then KChildren
  else KOther.

(** The files [import_tree] visits under [path], in the order of the visit. *)
Definition tree_files (fs : filesystem) (path : string) : list string :=
  subdir ← sorted (listdir fs path);
  let subpath := path_join path subdir in
  if isdir fs subpath then
    subfile ← sorted (listdir fs subpath);
    let datafile := path_join subpath subfile in
    if isfile fs datafile && endswith (py_lower datafile) ".txt" then [datafile] else []
  else [].

(** The zoo objects and the panda dicts among the references of a vertex
    list, in the order of the list. *)
Definition zoo_indices (l : list vobj) : list nat :=
  omap (λ o, match o with ZooObj i _ => Some i | PandaObj _ => None end) l.

Definition panda_dicts (l : list vobj) : list vertex :=
  omap (λ o, match o with ZooObj _ _ => None | PandaObj d => Some d end) l.

(** The stores a run can be in between two imports: any sequence of
    successful calls of the two importers on a fresh store. *)
Inductive reachable : RedPandaGraph → Prop :=
| reach_init : reachable init
| reach_zoo fs g path g' :
    reachable g → import_zoo fs g path = Ok g' → reachable g'
| reach_panda fs g path g' :
    reachable g → import_redpanda fs g path = Ok g' → reachable g'.

(** What holds of the store between two turns of the panda loop, the edges
    of the record under import still waiting in [pending]: a zoo reference
    in the vertex list is the dict the zoo list has at that index, no zoo
    object is referenced twice, the panda dicts and the panda files go in
    step, so do the zoos and the zoo files, every zoo object of the vertex
    list is the target of a zoo edge, and every zoo edge points to the id of
    a zoo whose dict is in the vertex list. *)
Record store_inv_with (pending : list edge) (g : RedPandaGraph) : Prop := {
  inv_shared : ∀ i d, ZooObj i d ∈ vertices g → zoos g !! i = Some d;
  inv_once : NoDup (zoo_indices (vertices g));
  inv_pandas : length (panda_dicts (vertices g)) = length (panda_files g);
  inv_zoos : length (zoos g) = length (zoo_files g);
  inv_used : ∀ i d, ZooObj i d ∈ vertices g →
    ∃ e, e ∈ edges g ++ pending ∧ kind_of (e_label e) = KZoo ∧ d !! "_id" = Some (e_in e);
  inv_target : ∀ e, e ∈ edges g ++ pending → kind_of (e_label e) = KZoo →
    ∃ d, d ∈ zoos g ∧ d !! "_id" = Some (e_in e) ∧ d ∈ obj_dict <$> vertices g
}.

Definition store_inv (g : RedPandaGraph) : Prop := store_inv_with [] g.

(** The export as the specification words it: every zoo vertex is in the
    [vertices] field, [totals.zoos] counts the zoo vertices of that list and
    [totals.pandas] its other vertices. *)
Definition export_as_specified (g : RedPandaGraph) : Prop :=
  (∀ d, d ∈ zoos g → d ∈ obj_dict <$> vertices g) ∧
  totals_zoos g = Z.of_nat (length (zoo_indices (vertices g))) ∧
  totals_pandas g = Z.of_nat (length (panda_dicts (vertices g))).

(** The files under [path] that [import_tree] hands to the importer: the
    entries of a subdirectory of [path] that are files and whose path ends,
    in lower case, in [.txt]. *)
Definition visited (fs : filesystem) (path p : string) : Prop :=
  ∃ subdir subfile,
    subdir ∈ listdir fs path ∧
    isdir fs (path_join path subdir) = true ∧
    subfile ∈ listdir fs (path_join path subdir) ∧
    p = path_join (path_join path subdir) subfile ∧
    isfile fs p = true ∧
    endswith (py_lower p) ".txt" = true.

(** [c in s] for a one-character [c]. *)
Fixpoint has_char (c : ascii) (s : string) : bool :=
  match s with
  | EmptyString => false
  | String a s' => Ascii.eqb a c || has_char c s'
  end.

(** The family edges a [children] value stands for. *)
Definition family_edges (panda_id : string) (children : list string) : list edge :=
  (λ child_id, mk_edge panda_id child_id "family") <$> children.

(** The child tokens of a record: those of its children fields, in order. *)
Definition record_children (path : string) (items : record) : list string :=
  field ← items;
  match kind_of field.1, children_tokens path field.2 with
  | KChildren, Ok children => children
  | _, _ => []
  end.

Definition is_family (e : edge) : Prop := e_label e = "family".

Global Instance is_family_dec (e : edge) : Decision (is_family e) :=
  decide (e_label e = "family").

(** The store after the zoo phase of [sample_fs]. *)
Definition sample_zoo_store : RedPandaGraph :=
  {| edges := [];
     vertices := [];
     zoos := [ {[ "_id" := "-5"; "en.name" := "Sample Zoo" ]} ];
     panda_files := [];
     zoo_files := ["./zoos/0001/sample.txt"] |}.

Definition males : list string := ["m"; "M"; "male"; "Male"; "オス"].
Definition females : list string := ["f"; "F"; "female"; "Female"; "メス"].


(** The edges of a record, field by field: one edge per birthplace/zoo
    field, the family edges of a children field, nothing for the others. *)
Definition record_edges (path panda_id : string) (items : record) : list edge :=
  field ← items;
  match kind_of field.1 with
  | KZoo =>
      match py_int field.2 with
      | Ok n => [mk_edge panda_id (py_str (- n)) field.1]
      | Raise _ => []
      end
  | KChildren =>
      match children_tokens path field.2 with
      | Ok children => family_edges panda_id children
      | Raise _ => []
      end
  | _ => []
  end.

(** The dict that the import of the zoo file [path] appends, and the vertex
    that the import of the panda file [path] appends. *)
Definition zoo_of (fs : filesystem) (path : string) (zoo_entry : vertex) : Prop :=
  ∃ g g', import_zoo fs g path = Ok g' ∧ last (zoos g') = Some zoo_entry.

Definition panda_of (fs : filesystem) (path : string) (panda_vertex : vertex) : Prop :=
  ∃ g g', import_redpanda fs g path = Ok g' ∧
          last (vertices g') = Some (PandaObj panda_vertex).

(** * Properties *)

(** ** The result monad and the loops *)

Lemma bind_Ok {A B : Type} (m : result A) (f : A → result B) (b : B) :
  m ≫= f = Ok b ↔ ∃ a, m = Ok a ∧ f a = Ok b.
Proof.
  destruct m as [a|e]; simpl; split.
  - intros H. exists a. split; [reflexivity | exact H].
  - intros (a' & [= <-] & H). exact H.
  - discriminate.
  - intros (a' & [=] & _).
Qed.

(** Splits a hypothesis [m ≫= f = Ok b] into its two halves. *)
Ltac inv_bind H :=
  let a := fresh "a" in
  let Ha := fresh "Ha" in
  apply bind_Ok in H as (a & Ha & H).

Lemma foldM_app {A S : Type} (f : S → A → result S) (s : S) (l1 l2 : list A) :
  foldM f s (l1 ++ l2) = foldM f s l1 ≫= λ s', foldM f s' l2.
Proof.
  revert s. induction l1 as [|x l1 IH]; intros s; simpl; [reflexivity|].
  destruct (f s x) as [s'|e]; simpl; [apply IH | reflexivity].
Qed.

(** A turn that raises in every state makes the loop raise. *)
Lemma foldM_raises {A S : Type} (f : S → A → result S) (l : list A) (x : A) :
  x ∈ l → (∀ s, ∃ e, f s x = Raise e) → ∀ s, ∃ e, foldM f s l = Raise e.
Proof.
  induction l as [|y l IH]; intros Hx Hbad s; [by apply elem_of_nil in Hx|].
  simpl. apply elem_of_cons in Hx as [<- | Hx].
  - destruct (Hbad s) as [e ->]. by exists e.
  - destruct (f s y) as [s1|e]; [by apply IH | by exists e].
Qed.

Lemma foldM_ext {A S : Type} (f f' : S → A → result S) (l : list A) (s : S) :
  (∀ s0 x, f s0 x = f' s0 x) → foldM f s l = foldM f' s l.
Proof.
  intros Heq. revert s. induction l as [|x l IH]; intros s; simpl; [reflexivity|].
  rewrite Heq. destruct (f' s x); [apply IH | reflexivity].
Qed.

(** ** [str_in] and the duplicate scan *)

Lemma str_in_spec (x : string) (l : list string) : str_in x l = true ↔ x ∈ l.
Proof.
  unfold str_in. rewrite existsb_exists. split.
  - intros (y & Hy & Heq). apply String.eqb_eq in Heq as ->. by apply list_elem_of_In.
  - intros Hx. exists x. split; [by apply list_elem_of_In | apply String.eqb_refl].
Qed.

Lemma str_in_false (x : string) (l : list string) : str_in x l = false ↔ x ∉ l.
Proof.
  rewrite <-str_in_spec. destruct (str_in x l); split; congruence.
Qed.

Lemma omap_imap_ext {A B C : Type} (f f' : B → option C) (g : nat → A → B) (l : list A) :
  (∀ n a, l !! n = Some a → f (g n a) = f' (g n a)) →
  omap f (imap g l) = omap f' (imap g l).
Proof.
  revert g. induction l as [|x l IH]; intros g Heq; [reflexivity|].
  assert (omap f (imap (g ∘ S) l) = omap f' (imap (g ∘ S) l)) as IH'.
  { apply IH. intros n a Hn. apply (Heq (S n) a Hn). }
  rewrite imap_cons. simpl. rewrite (Heq 0 x eq_refl).
  destruct (f' (g 0 x)); [f_equal|]; exact IH'.
Qed.

Lemma dupe_ids_of_snoc (ids : list string) (x : string) :
  dupe_ids_of (ids ++ [x]) = dupe_ids_of ids ++ (if str_in x ids then [x] else []).
Proof.
  unfold dupe_ids_of, enumerate. rewrite imap_app, omap_app. f_equal.
  - apply omap_imap_ext. intros n a Hn. simpl.
    rewrite take_app_le; [reflexivity|].
    apply lookup_lt_Some in Hn. lia.
  - simpl. rewrite Nat.add_0_r, take_app_length. by destruct (str_in x ids).
Qed.

Lemma dupe_ids_of_nil_iff (ids : list string) : dupe_ids_of ids = [] ↔ NoDup ids.
Proof.
  induction ids as [|x ids IH] using rev_ind.
  - split; [constructor | reflexivity].
  - rewrite dupe_ids_of_snoc, NoDup_app. split.
    + intros [H1 H2]%app_eq_nil. destruct (str_in x ids) eqn:Hx; [discriminate|].
      apply str_in_false in Hx. split_and!; [by apply IH | | apply NoDup_singleton].
      intros y Hy ->%list_elem_of_singleton. by apply Hx.
    + intros (Hnd & Hnot & _). apply IH in Hnd as ->. simpl.
      destruct (str_in x ids) eqn:Hx; [|reflexivity].
      apply str_in_spec in Hx. exfalso. apply (Hnot x Hx). by apply list_elem_of_singleton.
Qed.

(** The duplicate check in full: it passes on distinct ids, and on a
    repeated id it stops at the tuple indexing, before any [IdError]. *)
Lemma check_dataset_duplicate_ids_spec (dataset : list vertex) :
  check_dataset_duplicate_ids dataset =
    match forM (λ a, getitem a "_id") dataset with
    | Ok ids => if bool_decide (NoDup ids) then Ok () else Raise TypeError
    | Raise e => Raise e
    end.
Proof.
  unfold check_dataset_duplicate_ids.
  destruct (forM _ dataset) as [ids|e] eqn:Hids; simpl; [|reflexivity].
  case_bool_decide as Hnd.
  - apply dupe_ids_of_nil_iff in Hnd as ->. reflexivity.
  - destruct (dupe_ids_of ids) as [|d ds] eqn:Hd.
    { exfalso. by apply Hnd, dupe_ids_of_nil_iff. }
    simpl. destruct dataset as [|v dataset]; [|reflexivity].
    simpl in Hids. injection Hids as <-. discriminate.
Qed.

Lemma check_dataset_duplicate_ids_never_IdError (dataset : list vertex) (info : id_error) :
  check_dataset_duplicate_ids dataset ≠ Raise (IdError info).
Proof.
  rewrite check_dataset_duplicate_ids_spec.
  destruct (forM _ dataset) as [ids|e] eqn:Hids.
  - case_bool_decide; discriminate.
  - intros [= ->]. revert Hids. clear. revert dataset.
    assert (∀ (l : list vertex) i, forM (λ a, getitem a "_id") l ≠ Raise (IdError i)) as H.
    { induction l as [|x l IH]; intros i; simpl; [discriminate|].
      unfold getitem at 1. destruct (x !! "_id"); [|discriminate].
      destruct (forM _ l) eqn:Hl; [discriminate|].
      intros [= ->]. by eapply IH. }
    intros dataset Hd. by eapply H.
Qed.

(** ** The dataset checks on concrete data *)

(** The whole-dataset check of the pandas looks at the ids of the vertices
    and at nothing else: the edges and the dates play no part. *)
Lemma verify_pandas_only_ids (g : RedPandaGraph) :
  verify_pandas g = check_dataset_duplicate_ids (obj_dict <$> vertices g).
Proof.
  unfold verify_pandas, check_dataset_children_ids, check_dataset_dates.
  destruct (check_dataset_duplicate_ids _) as [[]|e]; reflexivity.
Qed.

(** C2, on the code: three pandas whose [children] fields form the loop
    1 -> 2 -> 3 -> 1 pass the whole-dataset validation; the build succeeds,
    the store holds the three [family] edges of the loop, and the export is
    written. *)
Theorem C2_family_cycle_is_exported :
  ∃ g out,
    build_graph cycle_fs init = Ok g ∧
    edges g = [mk_edge "1" "2" "family"; mk_edge "2" "3" "family";
               mk_edge "3" "1" "family"] ∧
    verify_pandas g = Ok () ∧
    main cycle_fs = Ok out.
Proof.
  eexists. eexists. split_and!; vm_compute; reflexivity.
Qed.

(** C3, on the code: a parent born in 2010 with a child born in 2000 passes
    the whole-dataset validation; both birthdays are in the store as given
    and the [family] edge between the two is kept. *)
Theorem C3_child_older_than_parent_is_exported :
  ∃ g parent child out,
    build_graph chronology_fs init = Ok g ∧
    vertices g = [PandaObj parent; PandaObj child] ∧
    parent !! "birthday" = Some "2010/01/01" ∧
    child !! "birthday" = Some "2000/01/01" ∧
    edges g = [mk_edge "1" "2" "family"] ∧
    main chronology_fs = Ok out.
Proof.
  do 4 eexists. split_and!; vm_compute; reflexivity.
Qed.


(** C4, on the code: the import of a panda record never calls the date
    validator; the birthdays [2021/02/30] and [next tuesday] are stored as
    they are and the build succeeds. *)
Theorem C4_dates_are_not_validated :
  ∃ g a b out,
    build_graph bad_date_fs init = Ok g ∧
    vertices g = [PandaObj a; PandaObj b] ∧
    a !! "birthday" = Some "2021/02/30" ∧
    b !! "birthday" = Some "next tuesday" ∧
    main bad_date_fs = Ok out.
Proof.
  do 4 eexists. split_and!; vm_compute; reflexivity.
Qed.

(** C5, on the code: a zoo record whose [en.name] has 81 characters is
    imported, passes the zoo validation and sits in the zoo list with its
    name unchanged. *)
Theorem C5_long_zoo_name_is_stored :
  ∃ g z,
    build_graph long_zoo_fs init = Ok g ∧
    zoos g = [z] ∧
    z !! "en.name" = Some long_name ∧
    py_len long_name = 81.
Proof.
  do 2 eexists. split_and!; vm_compute; reflexivity.
Qed.

(** C6, on the code: on two vertices that share the id 1 the duplicate
    check raises [TypeError], not an identifier error, and names nobody. *)
Theorem C6_duplicate_ids_raise_TypeError :
  check_dataset_duplicate_ids twin_dataset = Raise TypeError.
Proof. vm_compute. reflexivity. Qed.

Lemma filterM_head {A : Type} (p : A → result bool) (l : list A) (x : A) (xs : list A) :
  filterM p l = Ok (x :: xs) → x ∈ l ∧ p x = Ok true.
Proof.
  induction l as [|y l IH]; simpl; [discriminate|].
  destruct (p y) as [b|e] eqn:Hy; [|discriminate].
  destruct (filterM p l) as [ys|e]; [|discriminate].
  destruct b; intros H.
  - injection H as -> ->. split; [left | exact Hy].
  - injection H as ->. destruct IH as [Hx Hp]; [reflexivity|].
    split; [by right | exact Hp].
Qed.

(** ** One turn of the panda loop, branch by branch *)

Section field_branches.
Context (path panda_id : string).
Context (g : RedPandaGraph) (panda_edges : list edge) (panda_vertex : vertex).
Context (key value : string).

Local Abbreviation turn :=
  (import_redpanda_field path panda_id (g, panda_edges, panda_vertex) (key, value)).

Lemma turn_name :
  kind_of key = KName →
  turn = (check_imported_name value key path ≫= λ _,
          Ok (g, panda_edges, <[key := value]> panda_vertex)).
Proof.
  unfold kind_of. simpl. destruct (contains "name" key); [reflexivity|].
  by repeat case_match.
Qed.

Lemma turn_gender :
  kind_of key = KGender →
  turn = (check_imported_gender value path ≫= λ gender,
          Ok (g, panda_edges, <[key := gender]> panda_vertex)).
Proof.
  unfold kind_of. simpl. destruct (contains "name" key); [discriminate|].
  destruct (contains "gender" key); [reflexivity|].
  by repeat case_match.
Qed.

Lemma turn_children :
  kind_of key = KChildren →
  turn = (children_tokens path value ≫= λ children,
          Ok (g, panda_edges ++ family_edges panda_id children, panda_vertex)).
Proof.
  unfold kind_of. simpl. destruct (contains "name" key); [discriminate|].
  destruct (contains "gender" key); [discriminate|].
  destruct (contains "birthplace" key || contains "zoo" key); [discriminate|].
  destruct (contains "children" key); [reflexivity | discriminate].
Qed.

Lemma turn_other :
  kind_of key = KOther →
  turn = Ok (g, panda_edges, <[key := value]> panda_vertex).
Proof.
  unfold kind_of. simpl. destruct (contains "name" key); [discriminate|].
  destruct (contains "gender" key); [discriminate|].
  destruct (contains "birthplace" key || contains "zoo" key); [discriminate|].
  destruct (contains "children" key); [discriminate | reflexivity].
Qed.

(** The zoo branch, when it succeeds: the value is an integer, the zoo
    list holds at some index a dict carrying the negated id, one edge is
    emitted, and the zoo object is appended unless an equal dict is in the
    vertex list already. *)
Lemma turn_zoo_Ok g' panda_edges' panda_vertex' :
  kind_of key = KZoo →
  turn = Ok (g', panda_edges', panda_vertex') →
  ∃ n i d,
    py_int value = Ok n ∧
    zoos g !! i = Some d ∧
    d !! "_id" = Some (py_str (n * -1)) ∧
    panda_edges' = panda_edges ++ [mk_edge panda_id (py_str (n * -1)) key] ∧
    panda_vertex' = panda_vertex ∧
    g' = (if dict_in d (vertices g) then g else append_vertex g (ZooObj i d)).
Proof.
  unfold kind_of. simpl. destruct (contains "name" key); [discriminate|].
  destruct (contains "gender" key); [discriminate|].
  destruct (contains "birthplace" key || contains "zoo" key); [|by repeat case_match].
  intros _ H.
  inv_bind H. rename a into n. exists n.
  inv_bind H. inv_bind H. rename a0 into found.
  inv_bind H. destruct found as [|[i d] found]; [discriminate|].
  injection Ha2 as <-. injection H as <- <- <-. simpl.
  exists i, d.
  assert (zoos g !! i = Some d ∧ d !! "_id" = Some (py_str (n * -1))) as [Hi Hd].
  { apply filterM_head in Ha1 as [Hin Hp]. simpl in Hp.
    apply elem_of_lookup_imap in Hin as (i' & d' & [= -> ->] & Hi).
    split; [exact Hi|].
    unfold getitem in Hp. destruct (d' !! "_id") as [zid|]; [|discriminate].
    simpl in Hp. injection Hp as Hp. by apply String.eqb_eq in Hp as ->. }
  split_and!; try done.
  by destruct (dict_in d (vertices g)).
Qed.

(** What a successful turn did, by the branch it took. *)
Lemma turn_Ok_cases g' panda_edges' panda_vertex' :
  turn = Ok (g', panda_edges', panda_vertex') →
  match kind_of key with
  | KName =>
      py_len value ≤ 80 ∧
      g' = g ∧ panda_edges' = panda_edges ∧
      panda_vertex' = <[key := value]> panda_vertex
  | KGender =>
      ∃ gender, check_imported_gender value path = Ok gender ∧
      g' = g ∧ panda_edges' = panda_edges ∧
      panda_vertex' = <[key := gender]> panda_vertex
  | KZoo =>
      ∃ n i d,
        py_int value = Ok n ∧
        zoos g !! i = Some d ∧
        d !! "_id" = Some (py_str (n * -1)) ∧
        panda_edges' = panda_edges ++ [mk_edge panda_id (py_str (n * -1)) key] ∧
        panda_vertex' = panda_vertex ∧
        g' = (if dict_in d (vertices g) then g else append_vertex g (ZooObj i d))
  | KChildren =>
      ∃ children, children_tokens path value = Ok children ∧
      g' = g ∧ panda_edges' = panda_edges ++ family_edges panda_id children ∧
      panda_vertex' = panda_vertex
  | KOther =>
      g' = g ∧ panda_edges' = panda_edges ∧
      panda_vertex' = <[key := value]> panda_vertex
  end.
Proof.
  destruct (kind_of key) eqn:Hk; intros H.
  - rewrite turn_name in H by done. inv_bind H. injection H as <- <- <-.
    split_and!; try done.
    unfold check_imported_name in Ha.
    destruct (80 <? py_len value) eqn:Hlen; [discriminate|].
    apply Nat.ltb_ge in Hlen. exact Hlen.
  - rewrite turn_gender in H by done. inv_bind H. injection H as <- <- <-.
    by exists a.
  - by apply turn_zoo_Ok.
  - rewrite turn_children in H by done. inv_bind H. injection H as <- <- <-.
    by exists a.
  - rewrite turn_other in H by done. by injection H as <- <- <-.
Qed.
End field_branches.

Global Arguments import_redpanda_field : simpl never.

(** A successful import of a panda file, unfolded: the two lookups, the
    loop over the fields, and the three appends. *)
Lemma import_redpanda_Ok fs g path g' :
  import_redpanda fs g path = Ok g' →
  ∃ panda_nane panda_id items g1 panda_edges panda_vertex,
    config_get (read_config fs path) "panda" "en.name" = Ok panda_nane ∧
    config_get (read_config fs path) "panda" "_id" = Ok panda_id ∧
    config_items (read_config fs path) "panda" = Ok items ∧
    foldM (import_redpanda_field path panda_id) (g, [], ∅) items
      = Ok (g1, panda_edges, panda_vertex) ∧
    g' = {| edges := edges g1 ++ panda_edges;
            vertices := vertices g1 ++ [PandaObj panda_vertex];
            zoos := zoos g1;
            panda_files := panda_files g1 ++ [path];
            zoo_files := zoo_files g1 |}.
Proof.
  unfold import_redpanda. intros H.
  inv_bind H. inv_bind H. inv_bind H. inv_bind H.
  destruct a2 as [[g1 pe] pv]. injection H as <-.
  by exists a, a0, a1, g1, pe, pv.
Qed.

(** A turn writes at most the key of its own field. *)
Lemma turn_keeps_other_keys path panda_id g pe pv key value g' pe' pv' k :
  import_redpanda_field path panda_id (g, pe, pv) (key, value) = Ok (g', pe', pv') →
  k ≠ key → pv' !! k = pv !! k.
Proof.
  intros H Hk. apply turn_Ok_cases in H.
  destruct (kind_of key).
  - destruct H as (_ & _ & _ & ->). by rewrite lookup_insert_ne.
  - destruct H as (c & _ & _ & _ & ->). by rewrite lookup_insert_ne.
  - destruct H as (n & i & d & _ & _ & _ & _ & -> & _). reflexivity.
  - destruct H as (c & _ & _ & _ & ->). reflexivity.
  - destruct H as (_ & _ & ->). by rewrite lookup_insert_ne.
Qed.

Lemma loop_keeps_other_keys path panda_id items k :
  k ∉ items.*1 →
  ∀ g pe pv g' pe' pv',
    foldM (import_redpanda_field path panda_id) (g, pe, pv) items = Ok (g', pe', pv') →
    pv' !! k = pv !! k.
Proof.
  induction items as [|[key value] items IH]; intros Hk g pe pv g' pe' pv' H; simpl in H.
  - by injection H as <- <- <-.
  - destruct (import_redpanda_field _ _ _ _) as [[[g1 pe1] pv1]|e] eqn:Hturn; [|discriminate].
    rewrite fmap_cons, not_elem_of_cons in Hk. destruct Hk as [Hne Hk].
    rewrite (IH Hk _ _ _ _ _ _ H).
    eapply turn_keeps_other_keys; [exact Hturn | exact Hne].
Qed.

(** The first field whose turn raises decides the outcome of the import. *)
Lemma import_redpanda_first_error fs g path panda_nane panda_id pre field post st e :
  config_get (read_config fs path) "panda" "en.name" = Ok panda_nane →
  config_get (read_config fs path) "panda" "_id" = Ok panda_id →
  config_items (read_config fs path) "panda" = Ok (pre ++ field :: post) →
  foldM (import_redpanda_field path panda_id) (g, [], ∅) pre = Ok st →
  import_redpanda_field path panda_id st field = Raise e →
  import_redpanda fs g path = Raise e.
Proof.
  intros Hname Hid Hitems Hpre Hturn. unfold import_redpanda.
  rewrite Hname, Hid, Hitems. simpl.
  rewrite foldM_app, Hpre. simpl. rewrite Hturn. reflexivity.
Qed.

(** A field whose turn raises whatever the state makes the import raise. *)
Lemma import_redpanda_bad_field fs g path items field :
  config_items (read_config fs path) "panda" = Ok items →
  field ∈ items →
  (∀ panda_id st, ∃ e, import_redpanda_field path panda_id st field = Raise e) →
  ∃ e, import_redpanda fs g path = Raise e.
Proof.
  intros Hitems Hin Hbad. unfold import_redpanda.
  destruct (config_get _ "panda" "en.name") as [name|e]; [|by exists e].
  destruct (config_get _ "panda" "_id") as [panda_id|e]; [|by exists e].
  rewrite Hitems. simpl.
  destruct (foldM_raises (import_redpanda_field path panda_id) items field Hin
              (Hbad panda_id) (g, [], ∅)) as [e ->].
  by exists e.
Qed.

(** ** Gender *)

Lemma check_imported_gender_cases (gender sourcepath : string) :
  (gender ∈ males ∧ check_imported_gender gender sourcepath = Ok "Male") ∨
  (gender ∈ females ∧ check_imported_gender gender sourcepath = Ok "Female") ∨
  ((gender ∉ males) ∧ (gender ∉ females) ∧
   check_imported_gender gender sourcepath = Raise (GenderFormatError sourcepath gender)).
Proof.
  unfold check_imported_gender. fold males. fold females.
  destruct (str_in gender males) eqn:Hm.
  { left. by apply str_in_spec in Hm. }
  destruct (str_in gender females) eqn:Hf.
  { right. left. by apply str_in_spec in Hf. }
  apply str_in_false in Hm. apply str_in_false in Hf. by right; right.
Qed.

Lemma males_females_disjoint (gender : string) : gender ∈ males → gender ∉ females.
Proof.
  assert (Forall (λ x, x ∉ females) males) as Hall by compute_done.
  intros Hm. by apply (proj1 (Forall_forall _ _) Hall).
Qed.

(** After the loop, the key of a gender field carries what the validator
    returned for the value of that field. *)
Lemma loop_gender_stored path panda_id items key value :
  NoDup items.*1 →
  (key, value) ∈ items →
  kind_of key = KGender →
  ∀ g pe pv g' pe' pv',
    foldM (import_redpanda_field path panda_id) (g, pe, pv) items = Ok (g', pe', pv') →
    ∃ gender, check_imported_gender value path = Ok gender ∧ pv' !! key = Some gender.
Proof.
  induction items as [|[k v] items IH]; intros Hnd Hin Hkind g pe pv g' pe' pv' H.
  { by apply elem_of_nil in Hin. }
  simpl in H.
  destruct (import_redpanda_field _ _ _ _) as [[[g1 pe1] pv1]|e] eqn:Hturn; [|discriminate].
  rewrite fmap_cons in Hnd. apply NoDup_cons in Hnd as [Hfresh Hnd]. simpl in Hfresh.
  apply elem_of_cons in Hin as [[= <- <-] | Hin].
  - apply turn_Ok_cases in Hturn. rewrite Hkind in Hturn.
    destruct Hturn as (gender & Hcheck & _ & _ & ->).
    exists gender. split; [exact Hcheck|].
    rewrite (loop_keeps_other_keys _ _ _ _ Hfresh _ _ _ _ _ _ H).
    apply lookup_insert_eq.
  - by apply (IH Hnd Hin Hkind g1 pe1 pv1 g' pe' pv').
Qed.

(** C8: a gender field -- a field whose name takes the gender branch --
    with a value among m, M, male, Male, オス is stored in the panda vertex
    as exactly "Male", with a value among f, F, female, Female, メス as
    exactly "Female"; any other value makes the validator raise the
    gender-format error and the import of the record fail (with that very
    error when no earlier field of the record failed), so nothing else
    reaches the store. *)
Theorem C8_gender_is_canonical fs g path items key value :
  config_items (read_config fs path) "panda" = Ok items →
  NoDup items.*1 →
  (key, value) ∈ items →
  kind_of key = KGender →
  (value ∈ males → check_imported_gender value path = Ok "Male") ∧
  (value ∈ females → check_imported_gender value path = Ok "Female") ∧
  (∀ g', import_redpanda fs g path = Ok g' →
     ∃ panda_vertex,
       last (vertices g') = Some (PandaObj panda_vertex) ∧
       (value ∈ males ∧ panda_vertex !! key = Some "Male" ∨
        value ∈ females ∧ panda_vertex !! key = Some "Female")) ∧
  (value ∉ males → value ∉ females →
     check_imported_gender value path = Raise (GenderFormatError path value) ∧
     (∃ e, import_redpanda fs g path = Raise e) ∧
     (∀ panda_nane panda_id pre post st,
        config_get (read_config fs path) "panda" "en.name" = Ok panda_nane →
        config_get (read_config fs path) "panda" "_id" = Ok panda_id →
        items = pre ++ (key, value) :: post →
        foldM (import_redpanda_field path panda_id) (g, [], ∅) pre = Ok st →
        import_redpanda fs g path = Raise (GenderFormatError path value))).
Proof.
  intros Hitems Hnd Hin Hkind.
  destruct (check_imported_gender_cases value path)
    as [[Hm Hc] | [[Hf Hc] | (Hm & Hf & Hc)]].
  - split_and!.
    + done.
    + intros Hf. by apply males_females_disjoint in Hm.
    + intros g' Himp.
      apply import_redpanda_Ok in Himp
        as (nm & pid & items' & g1 & pe & pv & _ & _ & Hitems' & Hloop & ->).
      rewrite Hitems in Hitems'. injection Hitems' as <-.
      destruct (loop_gender_stored _ _ _ _ _ Hnd Hin Hkind _ _ _ _ _ _ Hloop)
        as (c & Hc' & Hpv).
      exists pv. simpl. rewrite last_snoc. split; [done|].
      left. split; [done|]. congruence.
    + done.
  - split_and!.
    + intros Hm. by apply males_females_disjoint in Hm.
    + done.
    + intros g' Himp.
      apply import_redpanda_Ok in Himp
        as (nm & pid & items' & g1 & pe & pv & _ & _ & Hitems' & Hloop & ->).
      rewrite Hitems in Hitems'. injection Hitems' as <-.
      destruct (loop_gender_stored _ _ _ _ _ Hnd Hin Hkind _ _ _ _ _ _ Hloop)
        as (c & Hc' & Hpv).
      exists pv. simpl. rewrite last_snoc. split; [done|].
      right. split; [done|]. congruence.
    + done.
  - assert (∀ panda_id st,
              import_redpanda_field path panda_id st (key, value)
              = Raise (GenderFormatError path value)) as Hturn.
    { intros pid [[g0 pe0] pv0]. rewrite turn_gender by done. by rewrite Hc. }
    split_and!.
    + done.
    + done.
    + intros g' Himp.
      destruct (import_redpanda_bad_field fs g path items (key, value) Hitems Hin)
        as [e He].
      { intros pid st. eexists. apply Hturn. }
      congruence.
    + intros _ _. split_and!.
      * done.
      * apply (import_redpanda_bad_field fs g path items (key, value) Hitems Hin).
        intros pid st. eexists. apply Hturn.
      * intros nm pid pre post st Hnm Hid -> Hpre.
        eapply import_redpanda_first_error; [exact Hnm | exact Hid | exact Hitems | exact Hpre |].
        apply Hturn.
Qed.

Lemma C8_gender_is_canonical_witness :
  ∃ g' panda_vertex,
    import_redpanda sample_fs sample_zoo_store "./pandas/0001/mochi.txt" = Ok g' ∧
    last (vertices g') = Some (PandaObj panda_vertex) ∧
    panda_vertex !! "gender" = Some "Female".
Proof.
  destruct (C8_gender_is_canonical sample_fs sample_zoo_store "./pandas/0001/mochi.txt"
              [("_id", "100"); ("en.name", "Mochi"); ("gender", "f");
               ("birthplace", "5"); ("children", "none")]
              "gender" "f")
    as (_ & _ & Hstored & _).
  - reflexivity.
  - compute_done.
  - compute_done.
  - reflexivity.
  - destruct (import_redpanda sample_fs sample_zoo_store "./pandas/0001/mochi.txt")
      as [g'|e] eqn:Himp; [|vm_compute in Himp; discriminate Himp].
    destruct (Hstored g' eq_refl) as (pv & Hlast & [[Hm _] | [_ Hpv]]).
    + exfalso. revert Hm. compute_done.
    + by exists g', pv.
Defined.

(** ** Children *)

(** The three outcomes of the children branch on a token list. *)
Lemma children_tokens_cases (path value : string) :
  let children := py_split "," (remove_char " " value) in
  (children = ["none"] ∨ children = ["unknown"] → children_tokens path value = Ok []) ∧
  ("none" ∈ children ∨ "unknown" ∈ children → 1 < length children →
     children_tokens path value = Raise (IdError (InvalidChildren path children))) ∧
  ("none" ∉ children → "unknown" ∉ children → children_tokens path value = Ok children).
Proof.
  intros children. unfold children_tokens. fold children. split_and!.
  - intros [-> | ->]; reflexivity.
  - intros Hin Hlen.
    assert (str_in "none" children || str_in "unknown" children = true) as ->.
    { apply orb_true_iff. destruct Hin as [H|H]; [left|right]; by apply str_in_spec. }
    apply Nat.ltb_lt in Hlen. by rewrite Hlen.
  - intros Hnone Hunknown.
    apply str_in_false in Hnone. apply str_in_false in Hunknown.
    by rewrite Hnone, Hunknown.
Qed.

Lemma filter_family_edges (panda_id : string) (children : list string) :
  filter is_family (family_edges panda_id children) = family_edges panda_id children.
Proof.
  induction children as [|c children IH]; [reflexivity|].
  unfold family_edges in *. rewrite fmap_cons, filter_cons_True by reflexivity.
  by rewrite IH.
Qed.

(** The label of a zoo edge is the name of its field, never [family]. *)
Lemma zoo_label_not_family (key : string) : kind_of key = KZoo → key ≠ "family".
Proof. intros Hk ->. vm_compute in Hk. discriminate Hk. Qed.

(** The family edges a loop adds are those of the children fields it met. *)
Lemma loop_family_edges path panda_id items :
  ∀ g pe pv g' pe' pv',
    foldM (import_redpanda_field path panda_id) (g, pe, pv) items = Ok (g', pe', pv') →
    filter is_family pe' =
      filter is_family pe ++ family_edges panda_id (record_children path items).
Proof.
  induction items as [|[key value] items IH]; intros g pe pv g' pe' pv' H; simpl in H.
  - injection H as <- <- <-. by rewrite app_nil_r.
  - destruct (import_redpanda_field _ _ _ _) as [[[g1 pe1] pv1]|e] eqn:Hturn; [|discriminate].
    rewrite (IH _ _ _ _ _ _ H). clear IH H.
    unfold record_children at 2. rewrite bind_cons. fold (record_children path items).
    unfold family_edges at 2. rewrite fmap_app. fold (family_edges panda_id).
    rewrite app_assoc. f_equal. simpl.
    apply turn_Ok_cases in Hturn. destruct (kind_of key) eqn:Hkind.
    + destruct Hturn as (_ & _ & -> & _). by rewrite app_nil_r.
    + destruct Hturn as (c & _ & _ & -> & _). by rewrite app_nil_r.
    + destruct Hturn as (n & i & d & _ & _ & _ & -> & _).
      rewrite filter_app, filter_cons_False, filter_nil.
      * reflexivity.
      * unfold is_family. simpl. by apply zoo_label_not_family.
    + destruct Hturn as (c & -> & _ & -> & _).
      by rewrite filter_app, filter_family_edges.
    + destruct Hturn as (_ & -> & _). by rewrite app_nil_r.
Qed.

Lemma record_children_none path items :
  (∀ field, field ∈ items → kind_of field.1 ≠ KChildren) →
  record_children path items = [].
Proof.
  induction items as [|[k v] items IH]; intros Hnone; [reflexivity|].
  unfold record_children. rewrite bind_cons. fold (record_children path items).
  rewrite IH by (intros f Hf; apply Hnone; by right).
  pose proof (Hnone (k, v) ltac:(left)) as Hk. simpl in *.
  destruct (kind_of k); try reflexivity. by destruct Hk.
Qed.

(** A record with one children field has the tokens of that field. *)
Lemma record_children_single path items key value children :
  NoDup items.*1 →
  (key, value) ∈ items →
  kind_of key = KChildren →
  (∀ field, field ∈ items → kind_of field.1 = KChildren → field.1 = key) →
  children_tokens path value = Ok children →
  record_children path items = children.
Proof.
  induction items as [|[k v] items IH]; intros Hnd Hin Hkind Honly Htok.
  { by apply elem_of_nil in Hin. }
  rewrite fmap_cons in Hnd. apply NoDup_cons in Hnd as [Hfresh Hnd]. simpl in Hfresh.
  unfold record_children. rewrite bind_cons. fold (record_children path items).
  apply elem_of_cons in Hin as [[= <- <-] | Hin].
  - simpl. rewrite Hkind, Htok.
    rewrite record_children_none; [by rewrite app_nil_r|].
    intros [k' v'] Hf Hk'. simpl in Hk'.
    apply Hfresh. rewrite <-(Honly (k', v')); [|by right|exact Hk'].
    apply list_elem_of_fmap. by exists (k', v').
  - assert (k ≠ key) as Hne.
    { intros ->. apply Hfresh. apply list_elem_of_fmap. by exists (key, value). }
    assert (kind_of k ≠ KChildren) as Hk.
    { intros Hk. apply Hne. apply (Honly (k, v)); [left | exact Hk]. }
    rewrite (IH Hnd Hin Hkind); [|intros f Hf; apply Honly; by right|exact Htok].
    simpl. destruct (kind_of k); try reflexivity. by destruct Hk.
Qed.

(** A turn leaves the store alone but for the vertex list. *)
Lemma turn_store_frame path panda_id g pe pv field g' pe' pv' :
  import_redpanda_field path panda_id (g, pe, pv) field = Ok (g', pe', pv') →
  edges g' = edges g ∧ zoos g' = zoos g ∧
  panda_files g' = panda_files g ∧ zoo_files g' = zoo_files g.
Proof.
  destruct field as [key value]. intros H. apply turn_Ok_cases in H.
  destruct (kind_of key).
  - by destruct H as (_ & -> & _).
  - by destruct H as (c & _ & -> & _).
  - destruct H as (n & i & d & _ & _ & _ & _ & _ & ->).
    by destruct (dict_in d (vertices g)).
  - by destruct H as (c & _ & -> & _).
  - by destruct H as (-> & _).
Qed.

Lemma loop_store_frame path panda_id items :
  ∀ g pe pv g' pe' pv',
    foldM (import_redpanda_field path panda_id) (g, pe, pv) items = Ok (g', pe', pv') →
    edges g' = edges g ∧ zoos g' = zoos g ∧
    panda_files g' = panda_files g ∧ zoo_files g' = zoo_files g.
Proof.
  induction items as [|field items IH]; intros g pe pv g' pe' pv' H; simpl in H.
  - by injection H as <- <- <-.
  - destruct (import_redpanda_field _ _ _ _) as [[[g1 pe1] pv1]|e] eqn:Hturn; [|discriminate].
    apply turn_store_frame in Hturn as (He & Hz & Hp & Hf).
    destruct (IH _ _ _ _ _ _ H) as (He' & Hz' & Hp' & Hf').
    split_and!; congruence.
Qed.

(** The family edges a successful import adds to the store. *)
Lemma import_redpanda_family_edges fs g path items panda_id g' :
  config_items (read_config fs path) "panda" = Ok items →
  config_get (read_config fs path) "panda" "_id" = Ok panda_id →
  import_redpanda fs g path = Ok g' →
  ∃ new, edges g' = edges g ++ new ∧
         filter is_family new = family_edges panda_id (record_children path items).
Proof.
  intros Hitems Hid Himp.
  apply import_redpanda_Ok in Himp
    as (nm & pid & items' & g1 & pe & pv & _ & Hid' & Hitems' & Hloop & ->).
  rewrite Hitems in Hitems'. injection Hitems' as <-.
  rewrite Hid in Hid'. injection Hid' as <-.
  exists pe. simpl. split.
  - by destruct (loop_store_frame _ _ _ _ _ _ _ _ _ Hloop) as (-> & _).
  - by rewrite (loop_family_edges _ _ _ _ _ _ _ _ _ Hloop).
Qed.

(** C7: take a record whose children field -- the one field that takes the
    children branch -- has the value [value], and let [children] be its
    comma-separated tokens with the spaces removed.  If [children] is the
    single token [none] or the single token [unknown], a successful import
    adds no family edge.  If one of the two tokens comes with any other
    token, the import is rejected, and with the identifier error when no
    earlier field of the record failed.  Otherwise a successful import adds
    exactly one family edge per token, in order, from the id of this panda
    ([_out]) to the token ([_in]). *)
Theorem C7_children_edges fs g path items key value panda_id :
  config_items (read_config fs path) "panda" = Ok items →
  config_get (read_config fs path) "panda" "_id" = Ok panda_id →
  NoDup items.*1 →
  (key, value) ∈ items →
  kind_of key = KChildren →
  (∀ field, field ∈ items → kind_of field.1 = KChildren → field.1 = key) →
  let children := py_split "," (remove_char " " value) in
  (children = ["none"] ∨ children = ["unknown"] →
     ∀ g', import_redpanda fs g path = Ok g' →
       ∃ new, edges g' = edges g ++ new ∧ filter is_family new = []) ∧
  ("none" ∈ children ∨ "unknown" ∈ children → 1 < length children →
     (∃ e, import_redpanda fs g path = Raise e) ∧
     (∀ panda_nane pre post st,
        config_get (read_config fs path) "panda" "en.name" = Ok panda_nane →
        items = pre ++ (key, value) :: post →
        foldM (import_redpanda_field path panda_id) (g, [], ∅) pre = Ok st →
        import_redpanda fs g path = Raise (IdError (InvalidChildren path children)))) ∧
  ("none" ∉ children → "unknown" ∉ children →
     ∀ g', import_redpanda fs g path = Ok g' →
       ∃ new, edges g' = edges g ++ new ∧
              filter is_family new =
                (λ child_id, mk_edge panda_id child_id "family") <$> children).
Proof.
  intros Hitems Hid Hnd Hin Hkind Honly children.
  destruct (children_tokens_cases path value) as (Halone & Hmixed & Hplain).
  fold children in Halone, Hmixed, Hplain.
  split_and!.
  - intros Hc g' Himp.
    destruct (import_redpanda_family_edges _ _ _ _ _ _ Hitems Hid Himp) as (new & Hnew & Hfam).
    exists new. split; [exact Hnew|].
    by rewrite Hfam, (record_children_single path items key value [] Hnd Hin Hkind Honly (Halone Hc)).
  - intros Hc Hlen.
    assert (∀ pid st, import_redpanda_field path pid st (key, value)
                      = Raise (IdError (InvalidChildren path children))) as Hturn.
    { intros pid [[g0 pe0] pv0]. rewrite turn_children by done.
      by rewrite (Hmixed Hc Hlen). }
    split.
    + apply (import_redpanda_bad_field fs g path items (key, value) Hitems Hin).
      intros pid st. eexists. apply Hturn.
    + intros nm pre post st Hnm -> Hpre.
      eapply import_redpanda_first_error; [exact Hnm | exact Hid | exact Hitems | exact Hpre |].
      apply Hturn.
  - intros Hnone Hunknown g' Himp.
    destruct (import_redpanda_family_edges _ _ _ _ _ _ Hitems Hid Himp) as (new & Hnew & Hfam).
    exists new. split; [exact Hnew|].
    by rewrite Hfam, (record_children_single path items key value children Hnd Hin Hkind Honly
                        (Hplain Hnone Hunknown)).
Qed.

Lemma C7_children_edges_witness :
  ∃ g' new,
    import_redpanda cycle_fs init "./pandas/0001/a.txt" = Ok g' ∧
    edges g' = edges init ++ new ∧
    filter is_family new = [mk_edge "1" "2" "family"].
Proof.
  destruct (C7_children_edges cycle_fs init "./pandas/0001/a.txt"
              [("_id", "1"); ("en.name", "A"); ("children", "2")]
              "children" "2" "1")
    as (_ & _ & Hplain).
  - reflexivity.
  - reflexivity.
  - compute_done.
  - compute_done.
  - reflexivity.
  - intros field Hf Hk.
    repeat (apply elem_of_cons in Hf as [-> | Hf]); try discriminate Hk; try reflexivity.
    by apply elem_of_nil in Hf.
  - destruct (import_redpanda cycle_fs init "./pandas/0001/a.txt")
      as [g'|e] eqn:Himp; [|vm_compute in Himp; discriminate Himp].
    destruct (Hplain ltac:(compute_done) ltac:(compute_done) g' eq_refl) as (new & Hnew & Hfam).
    by exists g', new.
Defined.

(** ** The order of the visit *)

(** [sorted] forgets the order in which the names were listed. *)
Lemma sorted_Permutation (l1 l2 : list string) : l1 ≡ₚ l2 → sorted l1 = sorted l2.
Proof.
  intros Hperm. unfold sorted.
  apply (Sorted_unique String.le).
  - apply Sorted_merge_sort, _.
  - apply Sorted_merge_sort, _.
  - by rewrite !merge_sort_Permutation.
Qed.

Lemma foldM_bind {A B S : Type} (f : S → B → result S) (h : A → list B) (l : list A) (s : S) :
  foldM f s (l ≫= h) = foldM (λ s0 x, foldM f s0 (h x)) s l.
Proof.
  revert s. induction l as [|x l IH]; intros s; [reflexivity|].
  rewrite bind_cons, foldM_app. simpl.
  destruct (foldM f s (h x)) as [s1|e]; simpl; [apply IH | reflexivity].
Qed.

(** [import_tree] imports the files of [tree_files] one after the other and
    then runs the check. *)
Lemma import_tree_files fs path import_method verify_method g :
  import_tree fs path import_method verify_method g =
    (foldM import_method g (tree_files fs path) ≫= λ g',
     verify_method g' ≫= λ _, Ok g').
Proof.
  unfold import_tree, tree_files. f_equal.
  rewrite foldM_bind. apply foldM_ext. intros g0 subdir.
  destruct (isdir fs (path_join path subdir)); [|reflexivity].
  rewrite foldM_bind. apply foldM_ext. intros g1 subfile.
  destruct (isfile fs _ && endswith _ ".txt"); simpl; [|reflexivity].
  by destruct (import_method g1 _).
Qed.

(** Two file systems that differ in the order of their listings only. *)
Section listing_order.
Context (fs1 fs2 : filesystem).
Context (Hlist : ∀ p, listdir fs1 p ≡ₚ listdir fs2 p).
Context (Hdir : ∀ p, isdir fs1 p = isdir fs2 p).
Context (Hfile : ∀ p, isfile fs1 p = isfile fs2 p).
Context (Hread : ∀ p, read_config fs1 p = read_config fs2 p).

Lemma tree_files_listing path : tree_files fs1 path = tree_files fs2 path.
Proof using Hlist Hdir Hfile.
  unfold tree_files. rewrite (sorted_Permutation _ _ (Hlist path)).
  induction (sorted (listdir fs2 path)) as [|subdir l IH]; [reflexivity|].
  rewrite !bind_cons, IH, Hdir. f_equal.
  destruct (isdir fs2 (path_join path subdir)); [|reflexivity].
  rewrite (sorted_Permutation _ _ (Hlist (path_join path subdir))).
  induction (sorted (listdir fs2 (path_join path subdir))) as [|subfile l' IH']; [reflexivity|].
  by rewrite !bind_cons, IH', Hfile.
Qed.

Lemma import_zoo_listing g path : import_zoo fs1 g path = import_zoo fs2 g path.
Proof using Hread. unfold import_zoo. by rewrite Hread. Qed.

Lemma import_redpanda_listing g path :
  import_redpanda fs1 g path = import_redpanda fs2 g path.
Proof using Hread. unfold import_redpanda. by rewrite Hread. Qed.

Lemma build_graph_listing g : build_graph fs1 g = build_graph fs2 g.
Proof using Hlist Hdir Hfile Hread.
  unfold build_graph. rewrite !import_tree_files, tree_files_listing.
  rewrite (foldM_ext (import_zoo fs1) (import_zoo fs2)) by apply import_zoo_listing.
  destruct (foldM (import_zoo fs2) g _) as [g1|e]; simpl; [|reflexivity].
  destruct (verify_zoos g1) as [[]|e]; simpl; [|reflexivity].
  rewrite !import_tree_files, tree_files_listing.
  by rewrite (foldM_ext (import_redpanda fs1) (import_redpanda fs2))
    by apply import_redpanda_listing.
Qed.
End listing_order.

(** C9: the outcome of a run -- the bytes written, the line printed, or the
    error raised -- is a function of the record set and ignores the order in
    which the directories list their entries: two file systems with the same
    directories, files and file contents whose listings are permutations of
    one another give the same outcome. *)
Theorem C9_export_is_deterministic (fs1 fs2 : filesystem) :
  (∀ p, listdir fs1 p ≡ₚ listdir fs2 p) →
  (∀ p, isdir fs1 p = isdir fs2 p) →
  (∀ p, isfile fs1 p = isfile fs2 p) →
  (∀ p, read_config fs1 p = read_config fs2 p) →
  main fs1 = main fs2.
Proof.
  intros Hlist Hdir Hfile Hread. unfold main.
  by rewrite (build_graph_listing fs1 fs2 Hlist Hdir Hfile Hread).
Qed.

Lemma C9_export_is_deterministic_witness :
  listdir siblings_fs "./pandas/0001" ≠ listdir siblings_fs_relisted "./pandas/0001" ∧
  main siblings_fs = main siblings_fs_relisted.
Proof.
  split; [discriminate|].
  apply C9_export_is_deterministic; intros p.
  - simpl. repeat case_match; try reflexivity. apply perm_swap.
  - reflexivity.
  - reflexivity.
  - unfold siblings_fs, siblings_fs_relisted, fs_of, read_config.
    match goal with
    | |- default [] (assoc p ?l1) = default [] (assoc p ?l2) =>
        let l1' := eval vm_compute in l1 in
        let l2' := eval vm_compute in l2 in
        change (default [] (assoc p l1') = default [] (assoc p l2'))
    end.
    cbn [assoc default].
    destruct (String.eqb "./zoos/0001/sample.txt" p); [reflexivity|].
    destruct (String.eqb "./pandas/0001/a.txt" p) eqn:Ha;
      destruct (String.eqb "./pandas/0001/b.txt" p) eqn:Hb; try reflexivity.
    apply String.eqb_eq in Ha. apply String.eqb_eq in Hb. congruence.
Defined.

(** ** The vertex list *)

Lemma dict_in_spec (d : vertex) (l : list vobj) :
  dict_in d l = true ↔ d ∈ obj_dict <$> l.
Proof.
  unfold dict_in. rewrite existsb_exists, list_elem_of_fmap. split.
  - intros (o & Ho & Heq). apply bool_decide_eq_true in Heq.
    exists o. split; [done | by apply list_elem_of_In].
  - intros (o & -> & Ho). exists o.
    split; [by apply list_elem_of_In | by apply bool_decide_eq_true].
Qed.

Lemma elem_of_zoo_indices (i : nat) (l : list vobj) :
  i ∈ zoo_indices l ↔ ∃ d, ZooObj i d ∈ l.
Proof.
  unfold zoo_indices. rewrite list_elem_of_omap. split.
  - intros ([j d|d] & Ho & Heq); [|discriminate]. injection Heq as ->. by exists d.
  - intros (d & Hd). by exists (ZooObj i d).
Qed.

Lemma zoo_indices_app (l1 l2 : list vobj) :
  zoo_indices (l1 ++ l2) = zoo_indices l1 ++ zoo_indices l2.
Proof. apply omap_app. Qed.

Lemma panda_dicts_app (l1 l2 : list vobj) :
  panda_dicts (l1 ++ l2) = panda_dicts l1 ++ panda_dicts l2.
Proof. apply omap_app. Qed.

(** Every reference is to a zoo object or to a panda dict. *)
Lemma length_vertices_split (l : list vobj) :
  length l = length (zoo_indices l) + length (panda_dicts l).
Proof.
  induction l as [|[i d|d] l IH]; simpl; [reflexivity | |]; rewrite IH; lia.
Qed.

Lemma family_label_not_zoo (panda_id : string) (children : list string) (e : edge) :
  e ∈ family_edges panda_id children → kind_of (e_label e) ≠ KZoo.
Proof.
  unfold family_edges. intros (c & -> & _)%list_elem_of_fmap. simpl.
  vm_compute. discriminate.
Qed.

(** A turn of the panda loop keeps the invariant. *)
Lemma turn_store_inv path panda_id g pe pv field g' pe' pv' :
  store_inv_with pe g →
  import_redpanda_field path panda_id (g, pe, pv) field = Ok (g', pe', pv') →
  store_inv_with pe' g'.
Proof.
  destruct field as [key value]. intros [Hsh Honce Hpan Hzoo Hused Htgt] H.
  apply turn_Ok_cases in H. destruct (kind_of key) eqn:Hkind.
  - destruct H as (_ & -> & -> & _). by constructor.
  - destruct H as (c & _ & -> & -> & _). by constructor.
  - destruct H as (n & i & d & _ & Hi & Hd & -> & _ & ->).
    set (ze := mk_edge panda_id (py_str (n * -1)) key).
    assert (d ∈ zoos g) as Hdz by (by eapply list_elem_of_lookup_2).
    destruct (dict_in d (vertices g)) eqn:Hin.
    + apply dict_in_spec in Hin. constructor; try done.
      * intros j d' Hj. destruct (Hused j d' Hj) as (e & He & Hk & Hid).
        exists e. split; [|done]. rewrite app_assoc. apply elem_of_app. by left.
      * intros e He Hk. rewrite app_assoc in He.
        apply elem_of_app in He as [He | ->%list_elem_of_singleton]; [by apply Htgt|].
        by exists d.
    + assert (i ∉ zoo_indices (vertices g)) as Hfresh.
      { intros (d' & Hd')%elem_of_zoo_indices.
        pose proof (Hsh i d' Hd') as Hi'. rewrite Hi in Hi'. injection Hi' as <-.
        assert (dict_in d (vertices g) = true) as Hin'; [|congruence].
        apply dict_in_spec, list_elem_of_fmap. by exists (ZooObj i d). }
      constructor; simpl.
      * intros j d' [Hj | [= -> ->]%list_elem_of_singleton]%elem_of_app; [by apply Hsh | done].
      * rewrite zoo_indices_app. simpl. apply NoDup_app. split_and!; [done | | apply NoDup_singleton].
        intros j Hj ->%list_elem_of_singleton. by apply Hfresh.
      * rewrite panda_dicts_app. simpl. by rewrite app_nil_r.
      * done.
      * intros j d' [Hj | [= -> ->]%list_elem_of_singleton]%elem_of_app.
        -- destruct (Hused j d' Hj) as (e & He & Hk & Hid).
           exists e. split; [|done]. rewrite app_assoc. apply elem_of_app. by left.
        -- exists ze. split_and!; [|done..].
           rewrite app_assoc. apply elem_of_app. right. by apply list_elem_of_singleton.
      * intros e He Hk. rewrite app_assoc in He. rewrite fmap_app.
        apply elem_of_app in He as [He | ->%list_elem_of_singleton].
        -- destruct (Htgt e He Hk) as (d' & ? & ? & ?).
           exists d'. split_and!; [done..|]. apply elem_of_app. by left.
        -- exists d. split_and!; [done..|]. apply elem_of_app. right. simpl.
           by apply list_elem_of_singleton.
  - destruct H as (c & _ & -> & -> & _). constructor; try done.
    + intros j d' Hj. destruct (Hused j d' Hj) as (e & He & Hk & Hid).
      exists e. split; [|done]. rewrite app_assoc. apply elem_of_app. by left.
    + intros e He Hk. rewrite app_assoc in He.
      apply elem_of_app in He as [He | He]; [by apply Htgt|].
      by apply family_label_not_zoo in He.
  - destruct H as (-> & -> & _). by constructor.
Qed.

Lemma loop_store_inv path panda_id items :
  ∀ g pe pv g' pe' pv',
    store_inv_with pe g →
    foldM (import_redpanda_field path panda_id) (g, pe, pv) items = Ok (g', pe', pv') →
    store_inv_with pe' g'.
Proof.
  induction items as [|field items IH]; intros g pe pv g' pe' pv' Hinv H; simpl in H.
  - by injection H as <- <- <-.
  - destruct (import_redpanda_field _ _ _ _) as [[[g1 pe1] pv1]|e] eqn:Hturn; [|discriminate].
    eapply IH; [|exact H]. by eapply turn_store_inv.
Qed.

Lemma init_store_inv : store_inv init.
Proof.
  constructor; simpl; try done.
  - intros i d Hin. by apply elem_of_nil in Hin.
  - constructor.
  - intros i d Hin. by apply elem_of_nil in Hin.
  - intros e Hin. by apply elem_of_nil in Hin.
Qed.

Lemma import_zoo_Ok fs g path g' :
  import_zoo fs g path = Ok g' →
  ∃ zoo_entry,
    g' = {| edges := edges g;
            vertices := vertices g;
            zoos := zoos g ++ [zoo_entry];
            panda_files := panda_files g;
            zoo_files := zoo_files g ++ [path] |}.
Proof.
  unfold import_zoo. intros H. inv_bind H. inv_bind H. injection H as <-. by exists a0.
Qed.

Lemma import_zoo_store_inv fs g path g' :
  store_inv g → import_zoo fs g path = Ok g' → store_inv g'.
Proof.
  intros [Hsh Honce Hpan Hzoo Hused Htgt] (z & ->)%import_zoo_Ok.
  constructor; simpl; try done.
  - intros i d Hi. apply lookup_app_l_Some. by apply Hsh.
  - rewrite !length_app. simpl. lia.
  - intros e He Hk. destruct (Htgt e He Hk) as (d & ? & ? & ?).
    exists d. split_and!; [|done..]. apply elem_of_app. by left.
Qed.

Lemma import_redpanda_store_inv fs g path g' :
  store_inv g → import_redpanda fs g path = Ok g' → store_inv g'.
Proof.
  intros Hinv Himp.
  apply import_redpanda_Ok in Himp
    as (nm & pid & items & g1 & pe & pv & _ & _ & _ & Hloop & ->).
  apply loop_store_inv in Hloop as [Hsh Honce Hpan Hzoo Hused Htgt]; [|exact Hinv].
  constructor; simpl.
  - intros i d [Hi | [=]%list_elem_of_singleton]%elem_of_app. by apply Hsh.
  - rewrite zoo_indices_app. simpl. by rewrite app_nil_r.
  - rewrite panda_dicts_app, !length_app. simpl. lia.
  - done.
  - intros i d [Hi | [=]%list_elem_of_singleton]%elem_of_app.
    rewrite app_nil_r. by apply (Hused i d).
  - intros e He Hk. rewrite app_nil_r in He.
    destruct (Htgt e He Hk) as (d & ? & ? & ?).
    exists d. split_and!; [done..|]. rewrite fmap_app. apply elem_of_app. by left.
Qed.

Lemma reachable_store_inv g : reachable g → store_inv g.
Proof.
  induction 1 as [|fs g path g' _ IH Himp|fs g path g' _ IH Himp].
  - apply init_store_inv.
  - by eapply import_zoo_store_inv.
  - by eapply import_redpanda_store_inv.
Qed.

(** ** The two phases of a build *)

Lemma zoo_phase fs files :
  ∀ g g', reachable g → foldM (import_zoo fs) g files = Ok g' →
    reachable g' ∧
    zoo_files g' = zoo_files g ++ files ∧ panda_files g' = panda_files g.
Proof.
  induction files as [|path files IH]; intros g g' Hr H; simpl in H.
  - injection H as <-. by rewrite app_nil_r.
  - destruct (import_zoo fs g path) as [g1|e] eqn:Himp; [|discriminate].
    destruct (IH g1 g') as (Hr' & Hz & Hp); [by eapply reach_zoo | exact H |].
    apply import_zoo_Ok in Himp as (z & ->). simpl in *.
    by rewrite Hz, <-app_assoc.
Qed.

Lemma panda_phase fs files :
  ∀ g g', reachable g → foldM (import_redpanda fs) g files = Ok g' →
    reachable g' ∧
    panda_files g' = panda_files g ++ files ∧ zoo_files g' = zoo_files g.
Proof.
  induction files as [|path files IH]; intros g g' Hr H; simpl in H.
  - injection H as <-. by rewrite app_nil_r.
  - destruct (import_redpanda fs g path) as [g1|e] eqn:Himp; [|discriminate].
    destruct (IH g1 g') as (Hr' & Hp & Hz); [by eapply reach_panda | exact H |].
    apply import_redpanda_Ok in Himp
      as (nm & pid & items & g2 & pe & pv & _ & _ & _ & Hloop & ->).
    apply loop_store_frame in Hloop as (_ & _ & Hpf & Hzf). simpl in *.
    rewrite Hp, Hz, Hpf, Hzf. by rewrite <-app_assoc.
Qed.

(** A successful build imported the zoo files, then the panda files, each
    list in the order of [tree_files], and passed both checks. *)
Lemma build_graph_Ok fs g :
  build_graph fs init = Ok g →
  reachable g ∧
  zoo_files g = tree_files fs ZOO_PATH ∧
  panda_files g = tree_files fs PANDA_PATH ∧
  verify_pandas g = Ok ().
Proof.
  unfold build_graph. intros H. inv_bind H. rename a into g1.
  rewrite import_tree_files in Ha. inv_bind Ha. inv_bind Ha. injection Ha as ->.
  rewrite import_tree_files in H. inv_bind H. inv_bind H. injection H as ->.
  destruct (zoo_phase _ _ _ _ reach_init Ha0) as (Hr1 & Hz1 & Hp1).
  destruct (panda_phase _ _ _ _ Hr1 Ha) as (Hr & Hp & Hz).
  split_and!.
  - exact Hr.
  - by rewrite Hz, Hz1.
  - by rewrite Hp, Hp1.
  - match goal with H : verify_pandas g = Ok ?u |- _ => by destruct u end.
Qed.

(** ** Zoo vertices *)

(** A zoo object that is in the vertex list is found there by the
    membership test of the zoo branch. *)
Lemma zoo_object_found pending g i d :
  store_inv_with pending g →
  zoos g !! i = Some d →
  i ∈ zoo_indices (vertices g) →
  dict_in d (vertices g) = true.
Proof.
  intros Hinv Hi (d' & Hd')%elem_of_zoo_indices.
  pose proof (inv_shared _ _ Hinv i d' Hd') as Hi'.
  rewrite Hi in Hi'. injection Hi' as <-.
  apply dict_in_spec, list_elem_of_fmap. by exists (ZooObj i d).
Qed.

(** The vertex list only grows: a turn keeps what is there. *)
Lemma turn_vertices_grow path panda_id g pe pv field g' pe' pv' :
  import_redpanda_field path panda_id (g, pe, pv) field = Ok (g', pe', pv') →
  vertices g `prefix_of` vertices g'.
Proof.
  destruct field as [key value]. intros H. apply turn_Ok_cases in H.
  destruct (kind_of key).
  - by destruct H as (_ & -> & _).
  - by destruct H as (c & _ & -> & _).
  - destruct H as (n & i & d & _ & _ & _ & _ & _ & ->).
    destruct (dict_in d (vertices g)); [done|]. by apply prefix_app_r.
  - by destruct H as (c & _ & -> & _).
  - by destruct H as (-> & _).
Qed.

Lemma loop_vertices_grow path panda_id items :
  ∀ g pe pv g' pe' pv',
    foldM (import_redpanda_field path panda_id) (g, pe, pv) items = Ok (g', pe', pv') →
    vertices g `prefix_of` vertices g'.
Proof.
  induction items as [|field items IH]; intros g pe pv g' pe' pv' H; simpl in H.
  - by injection H as <- <- <-.
  - destruct (import_redpanda_field _ _ _ _) as [[[g1 pe1] pv1]|e] eqn:Hturn; [|discriminate].
    etrans; [by eapply turn_vertices_grow | by eapply IH].
Qed.

(** C10: at every point of a build -- after any sequence of imports and any
    number of turns of the loop over the fields of the record under import
    -- no zoo object is in the vertex list twice; and a further
    birthplace/zoo field emits exactly one edge to the zoo, leaves the
    vertex list as it is when the zoo object (or a dict equal to it) is
    already there, and otherwise appends the zoo object once; either way the
    dict of the zoo is in the list from then on, so that no later reference
    adds it again. *)
Theorem C10_zoo_vertex_appended_once g path panda_id items g1 pe pv :
  reachable g →
  foldM (import_redpanda_field path panda_id) (g, [], ∅) items = Ok (g1, pe, pv) →
  NoDup (zoo_indices (vertices g1)) ∧
  ∀ key value g2 pe2 pv2,
    kind_of key = KZoo →
    import_redpanda_field path panda_id (g1, pe, pv) (key, value) = Ok (g2, pe2, pv2) →
    NoDup (zoo_indices (vertices g2)) ∧
    ∃ i d zoo_id,
      zoos g1 !! i = Some d ∧ d !! "_id" = Some zoo_id ∧
      pe2 = pe ++ [mk_edge panda_id zoo_id key] ∧
      (i ∈ zoo_indices (vertices g1) → vertices g2 = vertices g1) ∧
      (d ∈ obj_dict <$> vertices g1 → vertices g2 = vertices g1) ∧
      (vertices g2 = vertices g1 ∨
       ((i ∉ zoo_indices (vertices g1)) ∧ vertices g2 = vertices g1 ++ [ZooObj i d])) ∧
      d ∈ obj_dict <$> vertices g2.
Proof.
  intros Hr Hloop.
  assert (store_inv_with pe g1) as Hinv.
  { eapply loop_store_inv; [|exact Hloop]. by apply reachable_store_inv. }
  split; [by apply (inv_once _ _ Hinv)|].
  intros key value g2 pe2 pv2 Hkind Hturn. split.
  { by apply (inv_once _ _ (turn_store_inv _ _ _ _ _ _ _ _ _ Hinv Hturn)). }
  apply turn_Ok_cases in Hturn. rewrite Hkind in Hturn.
  destruct Hturn as (n & i & d & _ & Hi & Hd & -> & _ & ->).
  exists i, d, (py_str (n * -1)). split_and!; [done..| | | |].
  - intros Hin. by rewrite (zoo_object_found _ _ _ _ Hinv Hi Hin).
  - intros Hin. apply dict_in_spec in Hin. by rewrite Hin.
  - destruct (dict_in d (vertices g1)) eqn:Hfound; [by left|].
    right. split; [|done].
    intros Hin. by rewrite (zoo_object_found _ _ _ _ Hinv Hi Hin) in Hfound.
  - destruct (dict_in d (vertices g1)) eqn:Hfound; [by apply dict_in_spec|].
    simpl. rewrite fmap_app. apply elem_of_app. right. by apply list_elem_of_singleton.
Qed.

Lemma C10_zoo_vertex_appended_once_witness :
  ∃ g g1 pe pv,
    reachable g ∧
    zoo_indices (vertices g) = [0] ∧
    foldM (import_redpanda_field "./pandas/0001/b.txt" "2") (g, [], ∅) [("birthplace", "5")]
      = Ok (g1, pe, pv) ∧
    zoo_indices (vertices g1) = [0] ∧
    NoDup (zoo_indices (vertices g1)).
Proof.
  assert (import_zoo siblings_fs init "./zoos/0001/sample.txt" = Ok sample_zoo_store)
    as Hzoo by (vm_compute; reflexivity).
  eassert (import_redpanda siblings_fs sample_zoo_store "./pandas/0001/a.txt" = Ok _)
    as Hpanda by (vm_compute; reflexivity).
  match type of Hpanda with
  | _ = Ok ?g =>
      eassert (foldM (import_redpanda_field "./pandas/0001/b.txt" "2") (g, [], ∅)
                 [("birthplace", "5")] = Ok (_, _, _))
        as Hloop by (vm_compute; reflexivity)
  end.
  pose proof (reach_panda _ _ _ _ (reach_zoo _ _ _ _ reach_init Hzoo) Hpanda) as Hreach.
  do 4 eexists. split_and!.
  - exact Hreach.
  - vm_compute. reflexivity.
  - exact Hloop.
  - vm_compute. reflexivity.
  - exact (proj1 (C10_zoo_vertex_appended_once _ _ _ _ _ _ _ Hreach Hloop)).
Defined.

(** ** The export *)

(** When every zoo object is in the vertex list, the zoo references of the
    list are as many as the zoos. *)
Lemma all_zoos_listed g :
  store_inv g →
  (∀ i d, zoos g !! i = Some d → ZooObj i d ∈ vertices g) →
  length (zoo_indices (vertices g)) = length (zoos g).
Proof.
  intros Hinv Hall.
  rewrite <-(length_seq (length (zoos g)) 0).
  apply Permutation_length, NoDup_Permutation.
  - apply (inv_once _ _ Hinv).
  - apply NoDup_seq.
  - intros i. rewrite elem_of_seq, elem_of_zoo_indices. split.
    + intros (d & Hd). apply (inv_shared _ _ Hinv) in Hd.
      apply lookup_lt_Some in Hd. lia.
    + intros [_ Hlt]. simpl in Hlt.
      destruct (lookup_lt_is_Some_2 (zoos g) i Hlt) as [d Hd].
      exists d. by apply Hall.
Qed.

(** C1, as the code has it: after a successful build the [vertices] field
    of the export is the vertex list of the store.  That list holds one
    panda dict per imported panda file; of the zoo objects it holds those,
    each once, that are the target of a birthplace/zoo edge, and the dict of
    every zoo such an edge points to is in the list.  [totals.zoos] is the
    number of imported zoo files.  When every zoo object is in the vertex
    list, [totals.pandas] is the number of panda dicts of the list. *)
Theorem C1_export_vertices_and_totals fs g :
  build_graph fs init = Ok g →
  json_get (export_dict g) "vertices"
    = Some (JList (json_of_vertex ∘ obj_dict <$> vertices g)) ∧
  json_get (export_dict g) "totals"
    = Some (JDict [("zoos", JInt (Z.of_nat (length (tree_files fs ZOO_PATH))));
                   ("pandas", JInt (totals_pandas g))]) ∧
  length (zoos g) = length (tree_files fs ZOO_PATH) ∧
  length (panda_dicts (vertices g)) = length (tree_files fs PANDA_PATH) ∧
  NoDup (zoo_indices (vertices g)) ∧
  (∀ i d, ZooObj i d ∈ vertices g →
     zoos g !! i = Some d ∧
     ∃ e, e ∈ edges g ∧ kind_of (e_label e) = KZoo ∧ d !! "_id" = Some (e_in e)) ∧
  (∀ e, e ∈ edges g → kind_of (e_label e) = KZoo →
     ∃ d, d ∈ zoos g ∧ d !! "_id" = Some (e_in e) ∧ d ∈ obj_dict <$> vertices g) ∧
  ((∀ i d, zoos g !! i = Some d → ZooObj i d ∈ vertices g) →
     totals_pandas g = Z.of_nat (length (panda_dicts (vertices g)))).
Proof.
  intros (Hr & Hzf & Hpf & _)%build_graph_Ok.
  pose proof (reachable_store_inv g Hr) as Hinv.
  assert (length (zoos g) = length (tree_files fs ZOO_PATH)) as Hzoos.
  { by rewrite (inv_zoos _ _ Hinv), Hzf. }
  split_and!.
  - reflexivity.
  - unfold export_dict, json_get, totals_zoos. simpl. by rewrite Hzoos.
  - exact Hzoos.
  - by rewrite (inv_pandas _ _ Hinv), Hpf.
  - apply (inv_once _ _ Hinv).
  - intros i d Hin. split; [by apply (inv_shared _ _ Hinv)|].
    destruct (inv_used _ _ Hinv i d Hin) as (e & He & Hk & Hid).
    rewrite app_nil_r in He. by exists e.
  - intros e He Hk. apply (inv_target _ _ Hinv); [|exact Hk]. by rewrite app_nil_r.
  - intros Hall. unfold totals_pandas.
    rewrite (length_vertices_split (vertices g)), (all_zoos_listed g Hinv Hall). lia.
Qed.

Lemma C1_export_vertices_and_totals_witness :
  ∃ g,
    build_graph siblings_fs init = Ok g ∧
    length (zoos g) = 1 ∧
    length (panda_dicts (vertices g)) = 2 ∧
    NoDup (zoo_indices (vertices g)).
Proof.
  destruct (build_graph siblings_fs init) as [g|e] eqn:Hbuild;
    [|vm_compute in Hbuild; discriminate Hbuild].
  destruct (C1_export_vertices_and_totals _ _ Hbuild)
    as (_ & _ & Hzoos & Hpandas & Honce & _).
  exists g. split_and!.
  - reflexivity.
  - rewrite Hzoos. vm_compute. reflexivity.
  - rewrite Hpandas. vm_compute. reflexivity.
  - exact Honce.
Defined.

(** C1, as the specification words it, fails on a zoo no panda refers to:
    the build succeeds, the zoo is missing from the vertex list, and the
    totals are one zoo and minus one panda for an empty list. *)
Lemma C1_unreferenced_zoo_counterexample :
  ∃ g,
    build_graph lonely_zoo_fs init = Ok g ∧
    length (zoos g) = 1 ∧
    vertices g = [] ∧
    json_get (export_dict g) "vertices" = Some (JList []) ∧
    json_get (export_dict g) "totals"
      = Some (JDict [("zoos", JInt 1); ("pandas", JInt (-1))]) ∧
    ¬ export_as_specified g.
Proof.
  eexists. split_and!; try (vm_compute; reflexivity).
  intros (_ & _ & Hpandas). vm_compute in Hpandas. discriminate Hpandas.
Qed.

(** ** Further checks of the embedding *)

(** The end-to-end sample of the specification: one zoo with id 5, one
    panda born there. *)
Example sample_end_to_end :
  ∃ g zoo panda,
    build_graph sample_fs init = Ok g ∧
    vertices g = [ZooObj 0 zoo; PandaObj panda] ∧
    zoo !! "_id" = Some "-5" ∧
    panda !! "_id" = Some "100" ∧
    panda !! "gender" = Some "Female" ∧
    edges g = [mk_edge "100" "-5" "birthplace"] ∧
    totals_zoos g = 1%Z ∧
    totals_pandas g = 1%Z.
Proof. do 3 eexists. split_and!; vm_compute; reflexivity. Qed.

(** A reference to a zoo that was not imported stops the build. *)
Example missing_zoo_aborts :
  build_graph (fs_of [] [("a.txt", panda_file "1" "A" [("birthplace", "999")])]) init
  = Raise (IdError (ZooIdMissing "./pandas/0001/a.txt" "999")).
Proof. vm_compute. reflexivity. Qed.

(** A panda name of more than 80 characters is refused, whatever the field
    that carries it is called. *)
Lemma long_panda_name_rejected path panda_id st key value :
  kind_of key = KName →
  80 < py_len value →
  import_redpanda_field path panda_id st (key, value)
  = Raise (NameFormatError path key value).
Proof.
  intros Hkind Hlen. destruct st as [[g pe] pv]. rewrite turn_name by done.
  unfold check_imported_name. apply Nat.ltb_lt in Hlen. by rewrite Hlen.
Qed.

(** Bytes from 0x20 on, the quote and the backslash apart, go into a JSON
    string as they are; so does every byte of a non-ASCII character. *)
Lemma escape_char_plain (a : ascii) :
  (32 ≤ N_of_ascii a)%N → a ≠ dquote → a ≠ backslash →
  escape_char a = String a "".
Proof.
  intros Hn Hq Hb. unfold escape_char.
  apply Ascii.eqb_neq in Hq. apply Ascii.eqb_neq in Hb. rewrite Hq, Hb.
  cbv zeta.
  destruct (N_of_ascii a =? 8)%N eqn:E8; [apply N.eqb_eq in E8; lia|].
  destruct (N_of_ascii a =? 12)%N eqn:E12; [apply N.eqb_eq in E12; lia|].
  destruct (N_of_ascii a =? 10)%N eqn:E10; [apply N.eqb_eq in E10; lia|].
  destruct (N_of_ascii a =? 13)%N eqn:E13; [apply N.eqb_eq in E13; lia|].
  destruct (N_of_ascii a =? 9)%N eqn:E9; [apply N.eqb_eq in E9; lia|].
  destruct (N_of_ascii a <? 32)%N eqn:E32; [apply N.ltb_lt in E32; lia | reflexivity].
Qed.

Example dumps_keeps_japanese :
  json_dumps (JDict [("gender", JStr "オス"); ("en.name", JStr "Mochi")])
  = "{" +:+ encode_basestring "en.name" +:+ ": " +:+ encode_basestring "Mochi" +:+ ", "
        +:+ encode_basestring "gender" +:+ ": " +:+ String dquote ("オス" +:+ String dquote "")
        +:+ "}".
Proof. vm_compute. reflexivity. Qed.

(** * Further properties of the builder *)

(** ** Comprehensions over the ids *)

Lemma forM_Ok {A B : Type} (f : A → result B) (l : list A) (ys : list B) :
  forM f l = Ok ys ↔ Forall2 (λ x y, f x = Ok y) l ys.
Proof.
  revert ys. induction l as [|x l IH]; intros ys; simpl.
  - split.
    + intros [= <-]. constructor.
    + intros H. by inv H.
  - destruct (f x) as [y|e] eqn:Hx.
    + destruct (forM f l) as [ys'|e] eqn:Hl.
      * split.
        -- intros [= <-]. constructor; [exact Hx | by apply IH].
        -- intros H. inv H. f_equal.
           assert (y0 = y) as -> by congruence.
           f_equal. match goal with H : Forall2 _ l _ |- _ => apply IH in H end.
           congruence.
      * split; [discriminate|].
        intros H. inv H. match goal with H : Forall2 _ l _ |- _ => apply IH in H end.
        discriminate.
    + split; [discriminate|]. intros H. inv H. congruence.
Qed.

Lemma forM_Raise {A B : Type} (f : A → result B) (l : list A) (e : exn) :
  forM f l = Raise e → ∃ x, x ∈ l ∧ f x = Raise e.
Proof.
  induction l as [|x l IH]; simpl; [discriminate|].
  destruct (f x) as [y|e'] eqn:Hx.
  - destruct (forM f l) as [ys|e'']; [discriminate|].
    intros [= ->]. destruct IH as (x' & Hin & Hx'); [reflexivity|].
    exists x'. split; [by right | exact Hx'].
  - intros [= ->]. exists x. split; [left | exact Hx].
Qed.

Lemma forM_total {A B : Type} (f : A → result B) (l : list A) :
  (∀ x, x ∈ l → ∃ y, f x = Ok y) → ∃ ys, forM f l = Ok ys.
Proof.
  induction l as [|x l IH]; intros Hall; simpl; [by eexists|].
  destruct (Hall x) as [y ->]; [left|].
  destruct IH as [ys ->]; [intros x' Hx'; apply Hall; by right|].
  by eexists.
Qed.

(** The ids of a dataset, when every vertex has one. *)
Lemma ids_Ok (dataset : list vertex) (ids : list string) :
  forM (λ a, getitem a "_id") dataset = Ok ids ↔
  Forall2 (λ d i, d !! "_id" = Some i) dataset ids.
Proof.
  rewrite forM_Ok. split; intros H; eapply Forall2_impl; try exact H;
    intros d i; unfold getitem; destruct (d !! "_id"); congruence.
Qed.

Lemma ids_Raise (dataset : list vertex) (e : exn) :
  forM (λ a, getitem a "_id") dataset = Raise e ↔
  e = KeyError "_id" ∧ ∃ d, d ∈ dataset ∧ d !! "_id" = None.
Proof.
  split.
  - intros (d & Hin & Hd)%forM_Raise. unfold getitem in Hd.
    destruct (d !! "_id") eqn:Hid; [discriminate|]. injection Hd as <-.
    split; [reflexivity|]. by exists d.
  - intros (-> & d & Hin & Hd).
    destruct (forM (λ a, getitem a "_id") dataset) as [ids|e] eqn:Hids.
    + apply ids_Ok in Hids.
      apply list_elem_of_lookup in Hin as [n Hn].
      destruct (Forall2_lookup_l _ _ _ _ _ Hids Hn) as (i & _ & Hi). congruence.
    + apply forM_Raise in Hids as (d' & _ & Hd'). unfold getitem in Hd'.
      destruct (d' !! "_id"); [discriminate|]. by injection Hd' as <-.
Qed.

(** ** The duplicate check *)

Lemma duplicate_check_passed (dataset : list vertex) :
  check_dataset_duplicate_ids dataset = Ok () →
  ∃ ids, Forall2 (λ d i, d !! "_id" = Some i) dataset ids ∧ NoDup ids.
Proof.
  rewrite check_dataset_duplicate_ids_spec.
  destruct (forM (λ a, getitem a "_id") dataset) as [ids|e] eqn:Hids; [|discriminate].
  case_bool_decide; [|discriminate]. intros _. exists ids. by apply ids_Ok in Hids.
Qed.

(** X1: the duplicate check has three outcomes.  It passes exactly when every
    vertex has an [_id] and the ids are pairwise distinct; it raises
    [KeyError] on [_id] exactly when some vertex has none; it raises
    [TypeError] exactly when every vertex has an id and some id repeats; it
    raises nothing else. *)
Theorem X1_duplicate_check_outcomes (dataset : list vertex) :
  (check_dataset_duplicate_ids dataset = Ok () ↔
     ∃ ids, Forall2 (λ d i, d !! "_id" = Some i) dataset ids ∧ NoDup ids) ∧
  (check_dataset_duplicate_ids dataset = Raise (KeyError "_id") ↔
     ∃ d, d ∈ dataset ∧ d !! "_id" = None) ∧
  (check_dataset_duplicate_ids dataset = Raise TypeError ↔
     ∃ ids, Forall2 (λ d i, d !! "_id" = Some i) dataset ids ∧ ¬ NoDup ids) ∧
  (∀ e, check_dataset_duplicate_ids dataset = Raise e →
     e = KeyError "_id" ∨ e = TypeError).
Proof.
  rewrite check_dataset_duplicate_ids_spec.
  destruct (forM (λ a, getitem a "_id") dataset) as [ids|e] eqn:Hids.
  - pose proof Hids as Hall. apply ids_Ok in Hall.
    assert (∀ ids', Forall2 (λ d i, d !! "_id" = Some i) dataset ids' → ids' = ids) as Huniq.
    { intros ids' H'. apply ids_Ok in H'. congruence. }
    assert (∀ d, d ∈ dataset → d !! "_id" ≠ None) as Hhas.
    { intros d Hd Hnone.
      assert (forM (λ a, getitem a "_id") dataset = Raise (KeyError "_id")) as Hr.
      { apply ids_Raise. split; [reflexivity|]. by exists d. }
      congruence. }
    case_bool_decide as Hnd; split_and!.
    + split; [|done]. intros _. by exists ids.
    + split; [discriminate|]. intros (d & Hd & Hnone). by destruct (Hhas d Hd).
    + split; [discriminate|]. intros (ids' & H' & Hnd'). by rewrite (Huniq _ H') in Hnd'.
    + discriminate.
    + split; [discriminate|]. intros (ids' & H' & Hnd'). by rewrite (Huniq _ H') in Hnd'.
    + split; [discriminate|]. intros (d & Hd & Hnone). by destruct (Hhas d Hd).
    + split; [|done]. intros _. by exists ids.
    + intros e [= <-]. by right.
  - apply ids_Raise in Hids as (-> & d & Hd & Hnone).
    assert (∀ ids, ¬ Forall2 (λ d i, d !! "_id" = Some i) dataset ids) as Hno.
    { intros ids Hall. apply list_elem_of_lookup in Hd as [n Hn].
      destruct (Forall2_lookup_l _ _ _ _ _ Hall Hn) as (i & _ & Hi). congruence. }
    split_and!.
    + split; [discriminate|]. intros (ids & Hall & _). by destruct (Hno ids).
    + split; [|done]. intros _. by exists d.
    + split; [discriminate|]. intros (ids & Hall & _). by destruct (Hno ids).
    + intros e [= <-]. by left.
Qed.

(** ** The phases of a build and the ids *)

Lemma panda_phase_zoos fs files :
  ∀ g g', foldM (import_redpanda fs) g files = Ok g' → zoos g' = zoos g.
Proof.
  induction files as [|path files IH]; intros g g' H; simpl in H.
  - by injection H as <-.
  - destruct (import_redpanda fs g path) as [g1|e] eqn:Himp; [|discriminate].
    rewrite (IH _ _ H).
    apply import_redpanda_Ok in Himp
      as (nm & pid & items & g2 & pe & pv & _ & _ & _ & Hloop & ->).
    by apply loop_store_frame in Hloop as (_ & -> & _).
Qed.

Lemma build_graph_phases fs g :
  build_graph fs init = Ok g ↔
  ∃ g1,
    foldM (import_zoo fs) init (tree_files fs ZOO_PATH) = Ok g1 ∧
    verify_zoos g1 = Ok () ∧
    foldM (import_redpanda fs) g1 (tree_files fs PANDA_PATH) = Ok g ∧
    verify_pandas g = Ok ().
Proof.
  unfold build_graph. rewrite bind_Ok. split.
  - intros (g1 & H1 & H2).
    rewrite import_tree_files in H1. rewrite import_tree_files in H2.
    apply bind_Ok in H1 as (g1' & Hz & H1). apply bind_Ok in H1 as ([] & Hvz & [= ->]).
    apply bind_Ok in H2 as (g' & Hp & H2). apply bind_Ok in H2 as ([] & Hvp & [= ->]).
    by exists g1.
  - intros (g1 & Hz & Hvz & Hp & Hvp). exists g1.
    rewrite !import_tree_files, Hz, Hp. simpl. by rewrite Hvz, Hvp.
Qed.

(** X2: in the store of a successful build every zoo and every vertex has an
    [_id], the ids of the zoos are pairwise distinct, and so are the ids of
    the vertex list, zoos and pandas together. *)
Theorem X2_build_ids_distinct fs g :
  build_graph fs init = Ok g →
  ∃ zoo_ids vertex_ids,
    Forall2 (λ d i, d !! "_id" = Some i) (zoos g) zoo_ids ∧
    NoDup zoo_ids ∧
    Forall2 (λ d i, d !! "_id" = Some i) (obj_dict <$> vertices g) vertex_ids ∧
    NoDup vertex_ids.
Proof.
  intros (g1 & Hz & Hvz & Hp & Hvp)%build_graph_phases.
  rewrite verify_pandas_only_ids in Hvp.
  unfold verify_zoos in Hvz. rewrite <-(panda_phase_zoos _ _ _ _ Hp) in Hvz.
  apply duplicate_check_passed in Hvz as (zoo_ids & ? & ?).
  apply duplicate_check_passed in Hvp as (vertex_ids & ? & ?).
  by exists zoo_ids, vertex_ids.
Qed.

Lemma X2_build_ids_distinct_witness :
  ∃ g zoo_ids vertex_ids,
    build_graph siblings_fs init = Ok g ∧
    Forall2 (λ d i, d !! "_id" = Some i) (zoos g) zoo_ids ∧ NoDup zoo_ids ∧
    Forall2 (λ d i, d !! "_id" = Some i) (obj_dict <$> vertices g) vertex_ids ∧
    NoDup vertex_ids.
Proof.
  destruct (build_graph siblings_fs init) as [g|e] eqn:Hbuild;
    [|vm_compute in Hbuild; discriminate Hbuild].
  destruct (X2_build_ids_distinct _ _ Hbuild) as (zoo_ids & vertex_ids & H).
  by exists g, zoo_ids, vertex_ids.
Defined.

(** ** The zoo importer *)


Lemma import_zoo_field_Ok zoo_entry key value zoo_entry' :
  import_zoo_field zoo_entry (key, value) = Ok zoo_entry' ↔
  (key = "_id" ∧ ∃ n, py_int value = Ok n ∧
     zoo_entry' = <[key := py_str (n * -1)]> zoo_entry) ∨
  (key ≠ "_id" ∧ zoo_entry' = <[key := value]> zoo_entry).
Proof.
  unfold import_zoo_field. simpl.
  destruct (String.eqb key "_id") eqn:Hk.
  - apply String.eqb_eq in Hk as ->. split.
    + intros H. left. split; [reflexivity|].
      destruct (py_int value) as [n|e]; [|discriminate]. simpl in H.
      injection H as <-. by exists n.
    + intros [(_ & n & -> & ->) | [Hne _]]; [reflexivity | done].
  - apply String.eqb_neq in Hk. split.
    + intros [= <-]. by right.
    + intros [[Hid _] | [_ ->]]; [done | reflexivity].
Qed.


Global Arguments import_zoo_field : simpl never.

(** The loop of [import_zoo]: the keys it leaves alone, the keys it writes,
    and what it writes under each key of a record without repeated keys. *)
Lemma import_zoo_loop items :
  ∀ zoo_entry zoo_entry',
    foldM import_zoo_field zoo_entry items = Ok zoo_entry' →
    dom zoo_entry' = dom zoo_entry ∪ list_to_set items.*1 ∧
    (∀ k, k ∉ items.*1 → zoo_entry' !! k = zoo_entry !! k) ∧
    (NoDup items.*1 →
     ∀ key value, (key, value) ∈ items →
       if decide (key = "_id")
       then ∃ n, py_int value = Ok n ∧ zoo_entry' !! key = Some (py_str (- n))
       else zoo_entry' !! key = Some value).
Proof.
  induction items as [|[k v] items IH]; intros z z' H; simpl in H.
  - injection H as <-. split_and!.
    + simpl. by rewrite (right_id_L ∅ (∪)).
    + done.
    + intros _ key value Hin. by apply elem_of_nil in Hin.
  - destruct (import_zoo_field z (k, v)) as [z1|e] eqn:Hturn; [|discriminate].
    destruct (IH _ _ H) as (Hdom & Hframe & Hval). clear IH.
    assert (∃ v', z1 = <[k := v']> z ∧
              if decide (k = "_id") then ∃ n, py_int v = Ok n ∧ v' = py_str (- n)
              else v' = v) as (v' & -> & Hv').
    { apply import_zoo_field_Ok in Hturn as [(-> & n & Hn & ->) | (Hne & ->)].
      - eexists. split; [reflexivity|]. rewrite decide_True by done.
        exists n. split; [done|]. f_equal. lia.
      - exists v. split; [reflexivity|]. by rewrite decide_False. }
    split_and!.
    + rewrite Hdom, dom_insert_L. simpl.
      by rewrite (assoc_L (∪)), (comm_L (∪) (dom z)).
    + intros k' Hk'. rewrite fmap_cons, not_elem_of_cons in Hk'. destruct Hk' as [Hne Hk'].
      rewrite (Hframe k' Hk'). by rewrite lookup_insert_ne.
    + intros Hnd key value Hin.
      rewrite fmap_cons in Hnd. apply NoDup_cons in Hnd as [Hfresh Hnd]. simpl in Hfresh.
      apply elem_of_cons in Hin as [[= -> ->] | Hin].
      * rewrite (Hframe k Hfresh), lookup_insert_eq.
        destruct (decide (k = "_id")); [|congruence].
        destruct Hv' as (n & Hn & ->). by exists n.
      * by apply Hval.
Qed.

(** X3: the import of a zoo record without repeated keys appends to the zoo
    list exactly one dict and to the zoo files the path, and touches nothing
    else.  The dict has the keys of the record; under [_id] it carries the
    negation, printed in decimal, of the integer the record gives, and under
    every other key the value of the record as it is. *)
Theorem X3_import_zoo_stores fs g path items g' :
  config_items (read_config fs path) "zoo" = Ok items →
  NoDup items.*1 →
  import_zoo fs g path = Ok g' →
  ∃ zoo_entry,
    zoos g' = zoos g ++ [zoo_entry] ∧
    zoo_files g' = zoo_files g ++ [path] ∧
    vertices g' = vertices g ∧ edges g' = edges g ∧ panda_files g' = panda_files g ∧
    dom zoo_entry = list_to_set items.*1 ∧
    ∀ key value, (key, value) ∈ items →
      if decide (key = "_id")
      then ∃ n, py_int value = Ok n ∧ zoo_entry !! key = Some (py_str (- n))
      else zoo_entry !! key = Some value.
Proof.
  intros Hitems Hnd Himp. unfold import_zoo in Himp. rewrite Hitems in Himp. simpl in Himp.
  destruct (foldM import_zoo_field ∅ items) as [z|e] eqn:Hloop; [|discriminate].
  injection Himp as <-. simpl.
  destruct (import_zoo_loop _ _ _ Hloop) as (Hdom & _ & Hval).
  exists z. split_and!; try reflexivity.
  - by rewrite Hdom, dom_empty_L, (left_id_L ∅ (∪)).
  - by apply Hval.
Qed.

Lemma X3_import_zoo_stores_witness :
  ∃ g' zoo_entry,
    import_zoo sample_fs init "./zoos/0001/sample.txt" = Ok g' ∧
    zoos g' = [zoo_entry] ∧
    zoo_entry !! "_id" = Some "-5" ∧
    zoo_entry !! "en.name" = Some "Sample Zoo".
Proof.
  destruct (import_zoo sample_fs init "./zoos/0001/sample.txt") as [g'|e] eqn:Himp;
    [|vm_compute in Himp; discriminate Himp].
  destruct (X3_import_zoo_stores sample_fs init "./zoos/0001/sample.txt"
              [("_id", "5"); ("en.name", "Sample Zoo")] g')
    as (z & Hz & _ & _ & _ & _ & _ & Hval).
  - reflexivity.
  - compute_done.
  - exact Himp.
  - exists g', z. split_and!.
    + reflexivity.
    + exact Hz.
    + destruct (Hval "_id" "5") as (n & Hn & Hid); [compute_done|].
      vm_compute in Hn. injection Hn as <-. exact Hid.
    + apply (Hval "en.name" "Sample Zoo"). compute_done.
Defined.



(** ** References to zoos *)


Lemma zoo_reference_passes (g : RedPandaGraph) (zoo_id sourcepath : string) (n : Z) :
  py_int zoo_id = Ok n →
  (∀ d, d ∈ zoos g → is_Some (d !! "_id")) →
  (∃ d, d ∈ zoos g ∧ d !! "_id" = Some (py_str (- n))) →
  check_imported_zoo_id g zoo_id sourcepath = Ok ().
Proof.
  intros Hint Hhas (d & Hd & Hid). unfold check_imported_zoo_id. rewrite Hint. simpl.
  replace (n * -1)%Z with (- n)%Z by lia.
  destruct (forM_total (λ zoo, getitem zoo "_id") (zoos g)) as [ids Hids].
  { intros z Hz. destruct (Hhas z Hz) as [i Hi]. exists i. unfold getitem. by rewrite Hi. }
  rewrite Hids. simpl. apply ids_Ok in Hids.
  assert (str_in (py_str (- n)) ids = true) as ->; [|reflexivity].
  apply str_in_spec. apply list_elem_of_lookup in Hd as [k Hk].
  destruct (Forall2_lookup_l _ _ _ _ _ Hids Hk) as (i & Hi & Hdi).
  assert (i = py_str (- n)) as -> by congruence.
  by eapply list_elem_of_lookup_2.
Qed.


(** X6: a zoo that was imported can be referred to.  After the import of a
    zoo record whose [_id] is the integer [n], into a store all of whose
    zoos have an id, every reference that reads as the integer [n] -- the
    same digits or not -- passes the zoo-reference check, and all zoos of
    the store still have an id. *)
Theorem X6_imported_zoo_resolves fs g path items value n g' reference sourcepath :
  config_items (read_config fs path) "zoo" = Ok items →
  NoDup items.*1 →
  ("_id", value) ∈ items →
  py_int value = Ok n →
  (∀ d, d ∈ zoos g → is_Some (d !! "_id")) →
  import_zoo fs g path = Ok g' →
  py_int reference = Ok n →
  check_imported_zoo_id g' reference sourcepath = Ok () ∧
  (∀ d, d ∈ zoos g' → is_Some (d !! "_id")).
Proof.
  intros Hitems Hnd Hin Hint Hhas Himp Href.
  unfold import_zoo in Himp. rewrite Hitems in Himp. simpl in Himp.
  destruct (foldM import_zoo_field ∅ items) as [z|e] eqn:Hloop; [|discriminate].
  injection Himp as <-. simpl.
  destruct (import_zoo_loop _ _ _ Hloop) as (_ & _ & Hval).
  specialize (Hval Hnd "_id" value Hin). rewrite decide_True in Hval by done.
  destruct Hval as (n' & Hn' & Hid). rewrite Hint in Hn'. injection Hn' as <-.
  assert (∀ d, d ∈ zoos g ++ [z] → is_Some (d !! "_id")) as Hhas'.
  { intros d [Hd | ->%list_elem_of_singleton]%elem_of_app; [by apply Hhas | by eexists]. }
  split; [|exact Hhas'].
  eapply zoo_reference_passes; [exact Href | exact Hhas' |]. simpl.
  exists z. split; [|exact Hid]. apply elem_of_app. right. by apply list_elem_of_singleton.
Qed.

Lemma X6_imported_zoo_resolves_witness :
  ∃ g',
    import_zoo sample_fs init "./zoos/0001/sample.txt" = Ok g' ∧
    check_imported_zoo_id g' " +0_5 " "./pandas/0001/mochi.txt" = Ok ().
Proof.
  destruct (import_zoo sample_fs init "./zoos/0001/sample.txt") as [g'|e] eqn:Himp;
    [|vm_compute in Himp; discriminate Himp].
  exists g'. split; [reflexivity|].
  apply (X6_imported_zoo_resolves sample_fs init "./zoos/0001/sample.txt"
           [("_id", "5"); ("en.name", "Sample Zoo")] "5" 5 g' " +0_5 "
           "./pandas/0001/mochi.txt").
  - reflexivity.
  - compute_done.
  - compute_done.
  - reflexivity.
  - intros d Hd. by apply elem_of_nil in Hd.
  - exact Himp.
  - reflexivity.
Defined.

(** ** How the import of a panda file fails *)











(** ** What a panda vertex holds *)

(** What a turn of the panda loop keeps true of [panda_vertex]: every key
    was written by the branch its name selects. *)
Lemma loop_vertex_fields path panda_id items :
  ∀ g pe pv g' pe' pv',
    foldM (import_redpanda_field path panda_id) (g, pe, pv) items = Ok (g', pe', pv') →
    (∀ k v, pv !! k = Some v →
       match kind_of k with
       | KName => py_len v ≤ 80
       | KGender => v = "Male" ∨ v = "Female"
       | KZoo | KChildren => False
       | KOther => True
       end) →
    ∀ k v, pv' !! k = Some v →
      match kind_of k with
      | KName => py_len v ≤ 80
      | KGender => v = "Male" ∨ v = "Female"
      | KZoo | KChildren => False
      | KOther => True
      end.
Proof.
  induction items as [|[key value] items IH]; intros g pe pv g' pe' pv' H Hpv; simpl in H.
  - by injection H as <- <- <-.
  - destruct (import_redpanda_field _ _ _ _) as [[[g1 pe1] pv1]|e] eqn:Hturn; [|discriminate].
    apply (IH _ _ _ _ _ _ H). clear IH H.
    apply turn_Ok_cases in Hturn. intros k v Hk.
    destruct (kind_of key) eqn:Hkind.
    + destruct Hturn as (Hlen & _ & _ & ->).
      destruct (decide (k = key)) as [->|Hne].
      * rewrite lookup_insert_eq in Hk. injection Hk as <-. by rewrite Hkind.
      * rewrite lookup_insert_ne in Hk by done. by apply Hpv.
    + destruct Hturn as (c & Hc & _ & _ & ->).
      destruct (decide (k = key)) as [->|Hne].
      * rewrite lookup_insert_eq in Hk. injection Hk as <-. rewrite Hkind.
        destruct (check_imported_gender_cases value path)
          as [[_ Hc'] | [[_ Hc'] | (_ & _ & Hc')]]; rewrite Hc' in Hc;
          [left | right | discriminate]; congruence.
      * rewrite lookup_insert_ne in Hk by done. by apply Hpv.
    + destruct Hturn as (n & i & d & _ & _ & _ & _ & -> & _). by apply Hpv.
    + destruct Hturn as (c & _ & _ & _ & ->). by apply Hpv.
    + destruct Hturn as (_ & _ & ->).
      destruct (decide (k = key)) as [->|Hne].
      * by rewrite Hkind.
      * rewrite lookup_insert_ne in Hk by done. by apply Hpv.
Qed.

Lemma panda_vertex_fields g d :
  reachable g → PandaObj d ∈ vertices g →
  ∀ k v, d !! k = Some v →
    match kind_of k with
    | KName => py_len v ≤ 80
    | KGender => v = "Male" ∨ v = "Female"
    | KZoo | KChildren => False
    | KOther => True
    end.
Proof.
  induction 1 as [|fs g path g' Hr IH Himp|fs g path g' Hr IH Himp]; intros Hin.
  - by apply elem_of_nil in Hin.
  - apply import_zoo_Ok in Himp as (z & ->). by apply IH.
  - apply import_redpanda_Ok in Himp
      as (nm & pid & items & g1 & pe & pv & _ & _ & _ & Hloop & ->). simpl in Hin.
    apply elem_of_app in Hin as [Hin | [= ->]%list_elem_of_singleton].
    + (* a dict of an earlier import, or one the loop found in place *)
      assert (PandaObj d ∈ vertices g) as Hold; [|by apply IH].
      pose proof (loop_store_inv _ _ _ _ _ _ _ _ _
                    (reachable_store_inv g Hr) Hloop) as Hinv1.
      pose proof (reachable_store_inv g Hr) as Hinv.
      assert (panda_dicts (vertices g1) = panda_dicts (vertices g)) as Hsame.
      { pose proof (loop_vertices_grow _ _ _ _ _ _ _ _ _ Hloop) as [zs Hzs].
        pose proof (inv_pandas _ _ Hinv1) as H1. pose proof (inv_pandas _ _ Hinv) as H0.
        apply loop_store_frame in Hloop as (_ & _ & Hpf & _).
        rewrite Hzs, panda_dicts_app in H1 |- *. rewrite length_app, Hpf, <-H0 in H1.
        assert (panda_dicts zs = []) as -> by (apply length_zero_iff_nil; lia).
        by rewrite app_nil_r. }
      assert (d ∈ panda_dicts (vertices g1)) as Hd.
      { unfold panda_dicts. apply list_elem_of_omap. by exists (PandaObj d). }
      rewrite Hsame in Hd. unfold panda_dicts in Hd.
      apply list_elem_of_omap in Hd as ([i d'|d'] & Ho & Heq); [discriminate|].
      by injection Heq as ->.
    + apply (loop_vertex_fields _ _ _ _ _ _ _ _ _ Hloop).
      intros k v Hk. by rewrite lookup_empty in Hk.
Qed.

(** X9: in every store a run can reach, no name of a panda vertex -- the
    value under a key that contains [name] -- has more than 80 characters. *)
Theorem X9_panda_names_bounded g d key value :
  reachable g →
  PandaObj d ∈ vertices g →
  d !! key = Some value →
  contains "name" key = true →
  py_len value ≤ 80.
Proof.
  intros Hr Hin Hk Hname.
  pose proof (panda_vertex_fields g d Hr Hin key value Hk) as H.
  unfold kind_of in H. by rewrite Hname in H.
Qed.

(** X10: in every store a run can reach, the value of a panda vertex under
    a gender key -- a key that contains [gender] and not [name] -- is
    "Male" or "Female", whatever the records repeated or left out. *)
Theorem X10_panda_gender_canonical g d key value :
  reachable g →
  PandaObj d ∈ vertices g →
  d !! key = Some value →
  kind_of key = KGender →
  value = "Male" ∨ value = "Female".
Proof.
  intros Hr Hin Hk Hkind.
  pose proof (panda_vertex_fields g d Hr Hin key value Hk) as H.
  by rewrite Hkind in H.
Qed.

(** X11: the relationship fields of a record are turned into edges and are
    not copied into the vertex: in every store a run can reach, no key of a
    panda vertex takes the birthplace/zoo branch or the children branch. *)
Theorem X11_relationship_fields_not_stored g d key :
  reachable g →
  PandaObj d ∈ vertices g →
  is_Some (d !! key) →
  kind_of key ≠ KZoo ∧ kind_of key ≠ KChildren.
Proof.
  intros Hr Hin [value Hk].
  pose proof (panda_vertex_fields g d Hr Hin key value Hk) as H.
  by destruct (kind_of key).
Qed.

(** The store after the two imports of [sample_fs], for the witnesses. *)
Lemma sample_store_reachable :
  ∃ g d,
    reachable g ∧
    PandaObj d ∈ vertices g ∧
    d !! "_id" = Some "100" ∧
    d !! "en.name" = Some "Mochi" ∧
    d !! "gender" = Some "Female" ∧
    edges g = [mk_edge "100" "-5" "birthplace"].
Proof.
  assert (import_zoo sample_fs init "./zoos/0001/sample.txt" = Ok sample_zoo_store)
    as Hzoo by (vm_compute; reflexivity).
  destruct (import_redpanda sample_fs sample_zoo_store "./pandas/0001/mochi.txt")
    as [g|e] eqn:Hpanda; [|vm_compute in Hpanda; discriminate Hpanda].
  pose proof (reach_panda _ _ _ _ (reach_zoo _ _ _ _ reach_init Hzoo) Hpanda) as Hreach.
  vm_compute in Hpanda. injection Hpanda as <-.
  eexists _, _. split; [exact Hreach|].
  split; [apply list_elem_of_further, list_elem_of_here|].
  split_and!; vm_compute; reflexivity.
Qed.

Lemma X9_panda_names_bounded_witness :
  ∃ g d, reachable g ∧ PandaObj d ∈ vertices g ∧
         d !! "en.name" = Some "Mochi" ∧ py_len "Mochi" ≤ 80.
Proof.
  destruct sample_store_reachable as (g & d & Hr & Hin & _ & Hname & _).
  exists g, d. split_and!; try done.
  by apply (X9_panda_names_bounded g d "en.name" "Mochi").
Defined.

Lemma X10_panda_gender_canonical_witness :
  ∃ g d, reachable g ∧ PandaObj d ∈ vertices g ∧
         d !! "gender" = Some "Female" ∧ ("Female" = "Male" ∨ "Female" = "Female").
Proof.
  destruct sample_store_reachable as (g & d & Hr & Hin & _ & _ & Hgender & _).
  exists g, d. split_and!; try done.
  by apply (X10_panda_gender_canonical g d "gender" "Female").
Defined.

Lemma X11_relationship_fields_not_stored_witness :
  ∃ g d, reachable g ∧ PandaObj d ∈ vertices g ∧
         kind_of "en.name" ≠ KZoo ∧ kind_of "en.name" ≠ KChildren.
Proof.
  destruct sample_store_reachable as (g & d & Hr & Hin & _ & Hname & _).
  exists g, d. split; [done|]. split; [done|].
  apply (X11_relationship_fields_not_stored g d "en.name" Hr Hin). by eexists.
Defined.

(** ** The targets of the family edges *)

Lemma py_split_nonempty (c : ascii) (s : string) : py_split c s ≠ [].
Proof.
  destruct s as [|a s]; simpl; [discriminate|].
  destruct (Ascii.eqb a c); [discriminate|]. by destruct (py_split c s).
Qed.

(** The pieces of a split hold no separator, and no character that the
    string did not hold. *)
Lemma py_split_pieces (c : ascii) (s piece : string) :
  piece ∈ py_split c s →
  has_char c piece = false ∧ ∀ c', has_char c' s = false → has_char c' piece = false.
Proof.
  revert piece. induction s as [|a s IH]; intros piece; simpl.
  - intros ->%list_elem_of_singleton. done.
  - destruct (Ascii.eqb a c) eqn:Hac.
    + intros [-> | Hin]%elem_of_cons; [done|].
      destruct (IH piece Hin) as [H1 H2]. split; [exact H1|].
      intros c' [_ Hc']%orb_false_iff. by apply H2.
    + pose proof (py_split_nonempty c s) as Hne.
      destruct (py_split c s) as [|p ps]; [done|].
      intros [-> | Hin]%elem_of_cons.
      * destruct (IH p ltac:(left)) as [H1 H2]. simpl. split.
        -- by rewrite Hac, H1.
        -- intros c' [Ha Hc']%orb_false_iff. by rewrite Ha, (H2 c' Hc').
      * destruct (IH piece ltac:(by right)) as [H1 H2]. split; [exact H1|].
        intros c' [_ Hc']%orb_false_iff. by apply H2.
Qed.

Lemma remove_char_gone (c : ascii) (s : string) : has_char c (remove_char c s) = false.
Proof.
  induction s as [|a s IH]; simpl; [reflexivity|].
  destruct (Ascii.eqb a c) eqn:Hac; [exact IH|]. simpl. by rewrite Hac, IH.
Qed.

(** The tokens that become family edges: never one of the two placeholders,
    never with a space or a comma inside. *)
Lemma children_tokens_clean path value children child :
  children_tokens path value = Ok children →
  child ∈ children →
  child ≠ "none" ∧ child ≠ "unknown" ∧
  has_char "," child = false ∧ has_char " " child = false.
Proof.
  unfold children_tokens.
  set (tokens := py_split "," (remove_char " " value)).
  assert (∀ t, t ∈ tokens → has_char "," t = false ∧ has_char " " t = false) as Hchars.
  { intros t Ht. destruct (py_split_pieces _ _ _ Ht) as [H1 H2].
    split; [exact H1|]. apply H2, remove_char_gone. }
  destruct (str_in "none" tokens || str_in "unknown" tokens) eqn:Hflag.
  - destruct (1 <? length tokens) eqn:Hlen; [discriminate|].
    apply Nat.ltb_ge in Hlen.
    destruct tokens as [|t [|t' ts]]; simpl in Hlen; [| |lia].
    + intros [= <-] Hin. by apply elem_of_nil in Hin.
    + destruct (decide (t = "none")) as [->|Hn].
      { intros [= <-] Hin. by apply elem_of_nil in Hin. }
      destruct (decide (t = "unknown")) as [->|Hu].
      { intros [= <-] Hin. by apply elem_of_nil in Hin. }
      exfalso. apply orb_true_iff in Hflag as [Hflag | Hflag];
        apply str_in_spec, list_elem_of_singleton in Hflag; congruence.
  - apply orb_false_iff in Hflag as [Hn Hu].
    apply str_in_false in Hn. apply str_in_false in Hu.
    intros [= <-] Hin. destruct (Hchars child Hin) as [Hc Hs].
    split_and!; [by intros -> | by intros -> | exact Hc | exact Hs].
Qed.

(** X12: in every store a run can reach, no family edge points to the
    placeholder [none] or [unknown], and the child id of a family edge has
    no space and no comma in it. *)
Theorem X12_family_targets_clean g e :
  reachable g →
  e ∈ edges g →
  e_label e = "family" →
  e_in e ≠ "none" ∧ e_in e ≠ "unknown" ∧
  has_char "," (e_in e) = false ∧ has_char " " (e_in e) = false.
Proof.
  intros Hr. revert e.
  induction Hr as [|fs g path g' Hr IH Himp|fs g path g' Hr IH Himp]; intros e Hin Hfam.
  - by apply elem_of_nil in Hin.
  - apply import_zoo_Ok in Himp as (z & ->). by apply IH.
  - apply import_redpanda_Ok in Himp
      as (nm & pid & items & g1 & pe & pv & _ & _ & _ & Hloop & ->). simpl in Hin.
    pose proof (loop_store_frame _ _ _ _ _ _ _ _ _ Hloop) as (Hedges & _).
    rewrite Hedges in Hin. apply elem_of_app in Hin as [Hin | Hin]; [by apply IH|].
    clear IH Hedges. revert Hloop e Hin Hfam.
    assert (∀ e0 : edge, e0 ∈ @nil edge → e_label e0 = "family" →
              e_in e0 ≠ "none" ∧ e_in e0 ≠ "unknown" ∧
              has_char "," (e_in e0) = false ∧ has_char " " (e_in e0) = false) as Hnil.
    { intros e0 H0. by apply elem_of_nil in H0. }
    revert Hnil. generalize (@nil edge) as pe0. generalize (∅ : vertex) as pv0.
    generalize g at 1 as g0. clear Hr.
    induction items as [|[key value] items IHi]; intros g0 pv0 pe0 Hpe0 Hloop; simpl in Hloop.
    + injection Hloop as <- <- <-. exact Hpe0.
    + destruct (import_redpanda_field _ _ _ _) as [[[g2 pe2] pv2]|e0] eqn:Hturn; [|discriminate].
      apply (IHi g2 pv2 pe2); [|exact Hloop].
      apply turn_Ok_cases in Hturn. destruct (kind_of key) eqn:Hkind.
      * by destruct Hturn as (_ & _ & -> & _).
      * by destruct Hturn as (c & _ & _ & -> & _).
      * destruct Hturn as (n & i & d & _ & _ & _ & -> & _).
        intros e0 [H0 | ->%list_elem_of_singleton]%elem_of_app Hfam0; [by apply Hpe0|].
        simpl in Hfam0. by apply zoo_label_not_family in Hkind.
      * destruct Hturn as (c & Hc & _ & -> & _).
        intros e0 [H0 | H0]%elem_of_app Hfam0; [by apply Hpe0|].
        unfold family_edges in H0. apply list_elem_of_fmap in H0 as (child & -> & Hchild).
        simpl. by eapply children_tokens_clean.
      * by destruct Hturn as (_ & -> & _).
Qed.

Lemma X12_family_targets_clean_witness :
  ∃ g e, reachable g ∧ e ∈ edges g ∧ e_label e = "family" ∧ e_in e = "2" ∧
         e_in e ≠ "none".
Proof.
  destruct (import_redpanda cycle_fs init "./pandas/0001/a.txt") as [g|err] eqn:Himp;
    [|vm_compute in Himp; discriminate Himp].
  pose proof (reach_panda _ _ _ _ reach_init Himp) as Hreach.
  assert (mk_edge "1" "2" "family" ∈ edges g) as Hin.
  { vm_compute in Himp. injection Himp as <-. apply list_elem_of_here. }
  exists g, (mk_edge "1" "2" "family").
  refine (conj Hreach (conj Hin (conj eq_refl (conj eq_refl _)))).
  exact (proj1 (X12_family_targets_clean g (mk_edge "1" "2" "family") Hreach Hin eq_refl)).
Defined.

(** ** What an import adds to the store *)

(** The edges and the vertex a loop builds do not depend on the store. *)
Lemma loop_output_independent path panda_id items :
  ∀ g1 g2 pe pv g1' pe1 pv1 g2' pe2 pv2,
    foldM (import_redpanda_field path panda_id) (g1, pe, pv) items = Ok (g1', pe1, pv1) →
    foldM (import_redpanda_field path panda_id) (g2, pe, pv) items = Ok (g2', pe2, pv2) →
    pe1 = pe2 ∧ pv1 = pv2.
Proof.
  induction items as [|[key value] items IH];
    intros g1 g2 pe pv g1' pe1 pv1 g2' pe2 pv2 H1 H2; simpl in H1, H2.
  - injection H1 as <- <- <-. by injection H2 as <- <- <-.
  - destruct (import_redpanda_field path panda_id (g1, pe, pv) (key, value))
      as [[[ga pea] pva]|e] eqn:Ha; [|discriminate].
    destruct (import_redpanda_field path panda_id (g2, pe, pv) (key, value))
      as [[[gb peb] pvb]|e] eqn:Hb; [|discriminate].
    assert (pea = peb ∧ pva = pvb) as [-> ->]; [|by eapply IH].
    apply turn_Ok_cases in Ha. apply turn_Ok_cases in Hb.
    destruct (kind_of key).
    + destruct Ha as (_ & _ & -> & ->). by destruct Hb as (_ & _ & -> & ->).
    + destruct Ha as (c & Hc & _ & -> & ->). destruct Hb as (c' & Hc' & _ & -> & ->).
      split; [reflexivity | congruence].
    + destruct Ha as (n & i & d & Hn & _ & _ & -> & -> & _).
      destruct Hb as (n' & i' & d' & Hn' & _ & _ & -> & -> & _).
      split; [congruence | reflexivity].
    + destruct Ha as (c & Hc & _ & -> & ->). destruct Hb as (c' & Hc' & _ & -> & ->).
      split; [congruence | reflexivity].
    + destruct Ha as (_ & -> & ->). by destruct Hb as (_ & -> & ->).
Qed.

(** X13: what the import of a panda file adds does not depend on what was
    imported before.  Two successful imports of the same file into two
    stores append the same edges, in the same order, and the same panda
    vertex. *)
Theorem X13_import_independent_of_store fs g1 g2 path g1' g2' :
  import_redpanda fs g1 path = Ok g1' →
  import_redpanda fs g2 path = Ok g2' →
  ∃ new panda_vertex,
    edges g1' = edges g1 ++ new ∧
    edges g2' = edges g2 ++ new ∧
    last (vertices g1') = Some (PandaObj panda_vertex) ∧
    last (vertices g2') = Some (PandaObj panda_vertex).
Proof.
  intros H1 H2.
  apply import_redpanda_Ok in H1
    as (nm & pid & items & ga & pea & pva & _ & Hid & Hitems & Hla & ->).
  apply import_redpanda_Ok in H2
    as (nm' & pid' & items' & gb & peb & pvb & _ & Hid' & Hitems' & Hlb & ->).
  rewrite Hid in Hid'. injection Hid' as <-. rewrite Hitems in Hitems'. injection Hitems' as <-.
  destruct (loop_output_independent _ _ _ _ _ _ _ _ _ _ _ _ _ Hla Hlb) as [<- <-].
  apply loop_store_frame in Hla as (-> & _). apply loop_store_frame in Hlb as (-> & _).
  exists pea, pva. simpl. by rewrite !last_snoc.
Qed.

Lemma X13_import_independent_of_store_witness :
  ∃ g1' g2' new panda_vertex,
    import_redpanda sample_fs sample_zoo_store "./pandas/0001/mochi.txt" = Ok g1' ∧
    import_redpanda sample_fs g1' "./pandas/0001/mochi.txt" = Ok g2' ∧
    edges g1' = edges sample_zoo_store ++ new ∧
    edges g2' = edges g1' ++ new ∧
    last (vertices g1') = Some (PandaObj panda_vertex) ∧
    last (vertices g2') = Some (PandaObj panda_vertex).
Proof.
  destruct (import_redpanda sample_fs sample_zoo_store "./pandas/0001/mochi.txt")
    as [g1'|e] eqn:H1; [|vm_compute in H1; discriminate H1].
  destruct (import_redpanda sample_fs g1' "./pandas/0001/mochi.txt")
    as [g2'|e] eqn:H2.
  - destruct (X13_import_independent_of_store _ _ _ _ _ _ H1 H2) as (new & pv & H).
    by exists g1', g2', new, pv.
  - exfalso. vm_compute in H1. injection H1 as <-. vm_compute in H2. discriminate H2.
Defined.

(** The loop appends to the vertex list zoo objects only, each the dict of
    a zoo of the store that no vertex equalled when the loop began. *)
Lemma loop_appends_zoos path panda_id items :
  ∀ g pe pv g' pe' pv',
    foldM (import_redpanda_field path panda_id) (g, pe, pv) items = Ok (g', pe', pv') →
    ∃ zs,
      vertices g' = vertices g ++ zs ∧
      Forall (λ o, ∃ i d, o = ZooObj i d ∧ zoos g !! i = Some d ∧
                          d ∉ obj_dict <$> vertices g) zs.
Proof.
  induction items as [|[key value] items IH]; intros g pe pv g' pe' pv' H; simpl in H.
  - injection H as <- <- <-. exists []. by rewrite app_nil_r.
  - destruct (import_redpanda_field _ _ _ _) as [[[g1 pe1] pv1]|e] eqn:Hturn; [|discriminate].
    destruct (IH _ _ _ _ _ _ H) as (zs & Hzs & Hall). clear IH H.
    assert (∃ zs1, vertices g1 = vertices g ++ zs1 ∧ zoos g1 = zoos g ∧
              Forall (λ o, ∃ i d, o = ZooObj i d ∧ zoos g !! i = Some d ∧
                                  d ∉ obj_dict <$> vertices g) zs1) as (zs1 & Hzs1 & Hz & Hall1).
    { apply turn_Ok_cases in Hturn. destruct (kind_of key).
      - destruct Hturn as (_ & -> & _). exists []. by rewrite app_nil_r.
      - destruct Hturn as (c & _ & -> & _). exists []. by rewrite app_nil_r.
      - destruct Hturn as (n & i & d & _ & Hi & _ & _ & _ & ->).
        destruct (dict_in d (vertices g)) eqn:Hin.
        + exists []. by rewrite app_nil_r.
        + exists [ZooObj i d]. split_and!; [done..|].
          constructor; [|constructor]. exists i, d. split_and!; [done..|].
          intros Hd. apply dict_in_spec in Hd. congruence.
      - destruct Hturn as (c & _ & -> & _). exists []. by rewrite app_nil_r.
      - destruct Hturn as (-> & _). exists []. by rewrite app_nil_r. }
    exists (zs1 ++ zs). split; [by rewrite Hzs, Hzs1, app_assoc|].
    apply Forall_app. split; [exact Hall1|].
    eapply Forall_impl; [exact Hall|]. intros o (i & d & -> & Hi & Hd).
    exists i, d. split_and!; [reflexivity | by rewrite <-Hz |].
    intros Hd'. apply Hd. rewrite Hzs1, fmap_app. apply elem_of_app. by left.
Qed.

(** X14: an import of a panda file only appends.  The zoo list and the zoo
    files stay as they are; the path is appended to the panda files, the
    new edges to the edge list; the vertex list gets, after the vertices it
    had, zoo objects only -- each the dict of a zoo of the store that no
    vertex equalled before -- and last the vertex of the panda. *)
Theorem X14_import_redpanda_appends fs g path g' :
  import_redpanda fs g path = Ok g' →
  zoos g' = zoos g ∧
  zoo_files g' = zoo_files g ∧
  panda_files g' = panda_files g ++ [path] ∧
  (∃ new, edges g' = edges g ++ new) ∧
  ∃ zs panda_vertex,
    vertices g' = vertices g ++ zs ++ [PandaObj panda_vertex] ∧
    Forall (λ o, ∃ i d, o = ZooObj i d ∧ zoos g !! i = Some d ∧
                        d ∉ obj_dict <$> vertices g) zs.
Proof.
  intros Himp.
  apply import_redpanda_Ok in Himp
    as (nm & pid & items & g1 & pe & pv & _ & _ & _ & Hloop & ->). simpl.
  destruct (loop_appends_zoos _ _ _ _ _ _ _ _ _ Hloop) as (zs & Hzs & Hall).
  apply loop_store_frame in Hloop as (-> & -> & -> & ->).
  split_and!; try reflexivity.
  - by exists pe.
  - exists zs, pv. split; [|exact Hall]. by rewrite Hzs, app_assoc.
Qed.

Lemma X14_import_redpanda_appends_witness :
  ∃ g' zs panda_vertex,
    import_redpanda sample_fs sample_zoo_store "./pandas/0001/mochi.txt" = Ok g' ∧
    vertices g' = vertices sample_zoo_store ++ zs ++ [PandaObj panda_vertex] ∧
    zoos g' = zoos sample_zoo_store.
Proof.
  destruct (import_redpanda sample_fs sample_zoo_store "./pandas/0001/mochi.txt")
    as [g'|e] eqn:Himp; [|vm_compute in Himp; discriminate Himp].
  destruct (X14_import_redpanda_appends _ _ _ _ Himp)
    as (Hz & _ & _ & _ & zs & pv & Hv & _).
  by exists g', zs, pv.
Defined.

(** ** Which files are imported *)

Lemma elem_of_sorted (x : string) (l : list string) : x ∈ sorted l ↔ x ∈ l.
Proof. unfold sorted. by rewrite merge_sort_Permutation. Qed.

Lemma elem_of_tree_files fs path p : p ∈ tree_files fs path ↔ visited fs path p.
Proof.
  unfold tree_files, visited. rewrite list_elem_of_bind. split.
  - intros (subdir & Hp & Hsub). apply (proj1 (elem_of_sorted _ _)) in Hsub.
    destruct (isdir fs (path_join path subdir)) eqn:Hdir; [|by apply elem_of_nil in Hp].
    apply list_elem_of_bind in Hp as (subfile & Hp & Hfile).
    apply (proj1 (elem_of_sorted _ _)) in Hfile.
    destruct (isfile fs _ && endswith _ _) eqn:Hok; [|by apply elem_of_nil in Hp].
    apply list_elem_of_singleton in Hp as ->. apply andb_true_iff in Hok as [? ?].
    exists subdir, subfile. split_and!; done.
  - intros (subdir & subfile & Hsub & Hdir & Hfile & -> & Hisfile & Htxt).
    exists subdir. split; [|by apply elem_of_sorted].
    rewrite Hdir. apply list_elem_of_bind. exists subfile.
    split; [|by apply elem_of_sorted].
    rewrite Hisfile, Htxt. simpl. by apply list_elem_of_singleton.
Qed.

(** X15: a successful build imported, as zoos, exactly the files that lie
    directly in a subdirectory of the zoo path and whose name ends in
    [.txt] in upper or lower case, and as pandas exactly such files under
    the panda path; entries of the top directory itself, deeper entries,
    directories and other names are never read. *)
Theorem X15_imported_files fs g :
  build_graph fs init = Ok g →
  ∀ p, (p ∈ zoo_files g ↔ visited fs ZOO_PATH p) ∧
       (p ∈ panda_files g ↔ visited fs PANDA_PATH p).
Proof.
  intros (_ & Hz & Hp & _)%build_graph_Ok p.
  rewrite Hz, Hp. split; apply elem_of_tree_files.
Qed.

Lemma X15_imported_files_witness :
  ∃ g, build_graph sample_fs init = Ok g ∧
       visited sample_fs PANDA_PATH "./pandas/0001/mochi.txt" ∧
       ¬ visited sample_fs PANDA_PATH "./pandas/0001".
Proof.
  destruct (build_graph sample_fs init) as [g|e] eqn:Hbuild;
    [|vm_compute in Hbuild; discriminate Hbuild].
  pose proof (X15_imported_files _ _ Hbuild) as Hfiles.
  assert (panda_files g = ["./pandas/0001/mochi.txt"]) as Hpf.
  { vm_compute in Hbuild. by injection Hbuild as <-. }
  exists g. split_and!.
  - reflexivity.
  - apply (Hfiles "./pandas/0001/mochi.txt"). rewrite Hpf. apply list_elem_of_here.
  - intros Hv. apply (Hfiles "./pandas/0001") in Hv. rewrite Hpf in Hv.
    apply list_elem_of_singleton in Hv. discriminate Hv.
Defined.

(** ** The layout of the export *)








(** ** The date validator *)


(** ** How a build fails *)





(** ** The edges of a record *)

Lemma loop_edges path panda_id items :
  ∀ g pe pv g' pe' pv',
    foldM (import_redpanda_field path panda_id) (g, pe, pv) items = Ok (g', pe', pv') →
    pe' = pe ++ record_edges path panda_id items.
Proof.
  induction items as [|[key value] items IH]; intros g pe pv g' pe' pv' H; simpl in H.
  - injection H as <- <- <-. by rewrite app_nil_r.
  - destruct (import_redpanda_field _ _ _ _) as [[[g1 pe1] pv1]|e] eqn:Hturn; [|discriminate].
    rewrite (IH _ _ _ _ _ _ H). clear IH H.
    unfold record_edges at 2. rewrite bind_cons. fold (record_edges path panda_id items).
    rewrite app_assoc. f_equal. simpl.
    apply turn_Ok_cases in Hturn. destruct (kind_of key).
    + destruct Hturn as (_ & _ & -> & _). by rewrite app_nil_r.
    + destruct Hturn as (c & _ & _ & -> & _). by rewrite app_nil_r.
    + destruct Hturn as (n & i & d & -> & _ & _ & -> & _).
      by replace (n * -1)%Z with (- n)%Z by lia.
    + by destruct Hturn as (c & -> & _ & -> & _).
    + destruct Hturn as (_ & -> & _). by rewrite app_nil_r.
Qed.

(** X19: the edges a successful import adds are those of the record, field
    by field in the order of the record: per birthplace/zoo field one edge
    from the panda to the negated zoo id, labelled with the name of the
    field; per children field its family edges; for any other field none. *)
Theorem X19_import_adds_record_edges fs g path items panda_id g' :
  config_items (read_config fs path) "panda" = Ok items →
  config_get (read_config fs path) "panda" "_id" = Ok panda_id →
  import_redpanda fs g path = Ok g' →
  edges g' = edges g ++ record_edges path panda_id items.
Proof.
  intros Hitems Hid Himp.
  apply import_redpanda_Ok in Himp
    as (nm & pid & items' & g1 & pe & pv & _ & Hid' & Hitems' & Hloop & ->).
  rewrite Hitems in Hitems'. injection Hitems' as <-.
  rewrite Hid in Hid'. injection Hid' as <-. simpl.
  rewrite (loop_edges _ _ _ _ _ _ _ _ _ Hloop).
  by apply loop_store_frame in Hloop as (-> & _).
Qed.

Lemma X19_import_adds_record_edges_witness :
  ∃ g',
    import_redpanda siblings_fs sample_zoo_store "./pandas/0001/a.txt" = Ok g' ∧
    edges g' = [mk_edge "1" "-5" "birthplace"; mk_edge "1" "-5" "zoo"].
Proof.
  destruct (import_redpanda siblings_fs sample_zoo_store "./pandas/0001/a.txt")
    as [g'|e] eqn:Himp; [|vm_compute in Himp; discriminate Himp].
  exists g'. split; [reflexivity|].
  rewrite (X19_import_adds_record_edges siblings_fs sample_zoo_store "./pandas/0001/a.txt"
             [("_id", "1"); ("en.name", "A"); ("birthplace", "5"); ("zoo", "5")] "1" g'
             eq_refl eq_refl Himp).
  vm_compute. reflexivity.
Defined.






(** ** The order of the vertices *)

Lemma zoo_phase_entries fs files :
  ∀ g g', foldM (import_zoo fs) g files = Ok g' →
    vertices g' = vertices g ∧
    ∃ zs, zoos g' = zoos g ++ zs ∧ Forall2 (zoo_of fs) files zs.
Proof.
  induction files as [|path files IH]; intros g g' H; simpl in H.
  - injection H as <-. split; [reflexivity|]. exists []. by rewrite app_nil_r.
  - destruct (import_zoo fs g path) as [g1|e] eqn:Himp; [|discriminate].
    destruct (IH _ _ H) as (Hv & zs & Hz & Hall).
    pose proof Himp as (z & ->)%import_zoo_Ok. simpl in *.
    split; [exact Hv|]. exists (z :: zs). split; [by rewrite Hz, <-app_assoc|].
    constructor; [|exact Hall].
    eexists g, _. split; [exact Himp|]. simpl. by rewrite last_snoc.
Qed.

Lemma panda_dicts_of_zoos (zs : list vobj) :
  Forall (λ o, is_Some (match o with ZooObj i _ => Some i | PandaObj _ => None end)) zs →
  panda_dicts zs = [].
Proof.
  induction 1 as [|[i d|d] zs [x Hx] _ IH]; [reflexivity | exact IH | discriminate Hx].
Qed.

Lemma panda_phase_vertices fs files :
  ∀ g g', foldM (import_redpanda fs) g files = Ok g' →
    ∃ ds, panda_dicts (vertices g') = panda_dicts (vertices g) ++ ds ∧
          Forall2 (panda_of fs) files ds.
Proof.
  induction files as [|path files IH]; intros g g' H; simpl in H.
  - injection H as <-. exists []. by rewrite app_nil_r.
  - destruct (import_redpanda fs g path) as [g1|e] eqn:Himp; [|discriminate].
    destruct (IH _ _ H) as (ds & Hds & Hall).
    pose proof Himp as (nm & pid & items & g2 & pe & pv & _ & _ & _ & Hloop & Hg1)%import_redpanda_Ok.
    destruct (loop_appends_zoos _ _ _ _ _ _ _ _ _ Hloop) as (zs & Hzs & Hzoo).
    assert (panda_dicts (vertices g1) = panda_dicts (vertices g) ++ [pv]) as Hpd.
    { rewrite Hg1. simpl. rewrite Hzs, !panda_dicts_app.
      rewrite (panda_dicts_of_zoos zs); [by rewrite app_nil_r|].
      eapply Forall_impl; [exact Hzoo|]. intros o (i & d & -> & _). by eexists. }
    exists (pv :: ds). split; [by rewrite Hds, Hpd, <-app_assoc|].
    constructor; [|exact Hall].
    exists g, g1. split; [exact Himp|]. rewrite Hg1. simpl. by rewrite last_snoc.
Qed.

(** X21: the store of a successful build follows the order of the visit.
    Its zoos are, one for one and in order, the dicts of the zoo files as
    the sorted visit meets them, and the panda vertices of its vertex list
    are, one for one and in order, the vertices of the panda files. *)
Theorem X21_store_follows_visit fs g :
  build_graph fs init = Ok g →
  Forall2 (zoo_of fs) (tree_files fs ZOO_PATH) (zoos g) ∧
  Forall2 (panda_of fs) (tree_files fs PANDA_PATH) (panda_dicts (vertices g)).
Proof.
  intros (g1 & Hz & _ & Hp & _)%build_graph_phases.
  destruct (zoo_phase_entries _ _ _ _ Hz) as (Hv1 & zs & Hzs & Hzall).
  destruct (panda_phase_vertices _ _ _ _ Hp) as (ds & Hds & Hpall).
  rewrite (panda_phase_zoos _ _ _ _ Hp), Hzs, Hds, Hv1. simpl. by split.
Qed.

Lemma X21_store_follows_visit_witness :
  ∃ g, build_graph siblings_fs init = Ok g ∧
       Forall2 (panda_of siblings_fs)
         ["./pandas/0001/a.txt"; "./pandas/0001/b.txt"] (panda_dicts (vertices g)).
Proof.
  destruct (build_graph siblings_fs init) as [g|e] eqn:Hbuild;
    [|vm_compute in Hbuild; discriminate Hbuild].
  exists g. split; [reflexivity|].
  exact (proj2 (X21_store_follows_visit _ _ Hbuild)).
Defined.

(** ** The totals *)

(** X22: the totals of the export, on every store a run can reach.  The
    vertex list never holds more zoo objects than there are zoos;
    [totals.zoos] is the number of imported zoo files; [totals.pandas] is
    the number of imported panda files less the number of zoos that are not
    in the vertex list, so it undercounts by one for every zoo that no panda
    refers to. *)
Theorem X22_totals_formula g :
  reachable g →
  length (zoo_indices (vertices g)) ≤ length (zoos g) ∧
  totals_zoos g = Z.of_nat (length (zoo_files g)) ∧
  totals_pandas g =
    (Z.of_nat (length (panda_files g))
     - Z.of_nat (length (zoos g) - length (zoo_indices (vertices g))))%Z.
Proof.
  intros Hinv%reachable_store_inv.
  assert (length (zoo_indices (vertices g)) ≤ length (zoos g)) as Hle.
  { rewrite <-(length_seq (length (zoos g)) 0).
    apply submseteq_length, NoDup_submseteq; [apply (inv_once _ _ Hinv)|].
    intros i (d & Hd)%elem_of_zoo_indices. apply (inv_shared _ _ Hinv) in Hd.
    apply lookup_lt_Some in Hd. apply elem_of_seq. lia. }
  split_and!.
  - exact Hle.
  - unfold totals_zoos. by rewrite (inv_zoos _ _ Hinv).
  - unfold totals_pandas.
    rewrite (length_vertices_split (vertices g)), (inv_pandas _ _ Hinv). lia.
Qed.

Lemma X22_totals_formula_witness :
  ∃ g, reachable g ∧ totals_zoos g = 1%Z ∧ totals_pandas g = (-1)%Z.
Proof.
  assert (import_zoo sample_fs init "./zoos/0001/sample.txt" = Ok sample_zoo_store)
    as Hzoo by (vm_compute; reflexivity).
  pose proof (reach_zoo _ _ _ _ reach_init Hzoo) as Hreach.
  destruct (X22_totals_formula _ Hreach) as (_ & Hz & Hp).
  exists sample_zoo_store. split_and!; [exact Hreach | by rewrite Hz | by rewrite Hp].
Defined.
